(** * tweet-sentiment: the topic series of [modules/topics.py]

    A shallow embedding of the class [TopicSeries] and of its tokenizer,
    with the properties its specification states about them.

    The embedding follows the Python source line by line.  What the
    source obtains from other packages is kept abstract:
    - [str.lower] (the Python runtime) is the field of the class [PyStr];
    - the spaCy pipeline [nlp] is the field of the class [Spacy];
    - the scikit-learn estimators and [_beta_divergence] are the fields of
      the class [Sklearn]; every call into scikit-learn may raise.

    Methods that read or write [self], or print, are computations in a
    state-and-exception monad [M] whose state survives an exception, as
    the attributes of a Python object do. *)

From stdpp Require Import base option list strings gmap fin_maps sorting.
From Stdlib Require Import ZArith Lia Ascii.

Open Scope string_scope.
Open Scope list_scope.
Open Scope Z_scope.

(** ** Tokens of the annotation pipeline *)

(** The attributes of a spaCy token that [twitter_tokenizer] reads;
    [is_piclink] and [is_hashtag] are the extension attributes
    [t._.is_piclink] and [t._.is_hashtag]. *)
Record Token := mkToken {
  text : string;
  lemma_ : string;
  like_url : bool;
  is_piclink : bool;
  is_stop : bool;
  is_alpha : bool;
  is_hashtag : bool
}.

(** A spaCy [Doc]: the tokens of one text, in order. *)
Abbreviation Doc := (list Token).

(** [str.lower] of the Python runtime. *)
Class PyStr := { lower : string → string }.

(** ** [TopicSeries.twitter_tokenizer] *)

Section Tokenizer.
Context `{PyStr}.

Section Flags.
Variables (urls stop_words lowercase alpha_only hashtags lemma : bool).

(** One pass through the body of [for t in doc]: [None] when a
    [continue] is reached, [Some s] when [s] is appended to [tokens].
    In Python [&] binds tighter than [not] and [or], so the three
    tests read [like_url or (is_piclink & urls)], [is_stop & stop_words]
    and [not (is_alpha & alpha_only)]. *)
Definition twitter_tokenizer_body (t : Token) : option string :=
  if like_url t || (is_piclink t && urls) then None
  else if is_stop t && stop_words then None
  else
    let skip :=
      if negb (is_alpha t && alpha_only) then
        if hashtags then true
        else if negb (is_hashtag t) then true else false
      else false in
    if skip then None
    else
      let t' := if lemma then lemma_ t else text t in
      let t' := if lowercase then lower t' else t' in
      Some t'.

(** The loop, [tokens] being the collector the source appends to. *)
Fixpoint twitter_tokenizer_loop (doc : Doc) (tokens : list string)
  : list string :=
  match doc with
  | [] => tokens
  | t :: doc' =>
      match twitter_tokenizer_body t with
      | None => twitter_tokenizer_loop doc' tokens
      | Some s => twitter_tokenizer_loop doc' (tokens ++ [s])
      end
  end.

Definition twitter_tokenizer (doc : Doc) : list string :=
  twitter_tokenizer_loop doc [].

(** The token survives all three filters. *)
Definition kept (t : Token) : bool :=
  bool_decide (is_Some (twitter_tokenizer_body t)).

(** The string appended for a surviving token. *)
Definition rendered (t : Token) : string :=
  let t' := if lemma then lemma_ t else text t in
  if lowercase then lower t' else t'.
End Flags.

(** [twitter_tokenizer(doc)] with every keyword argument at its default:
    [urls=True, stop_words=True, lowercase=True, alpha_only=True,
     hashtags=False, lemma=False]. *)
Definition twitter_tokenizer_default (doc : Doc) : list string :=
  twitter_tokenizer true true true true false false doc.

(** An output string read back as an annotation that carries no flag. *)
Definition plain_token (s : string) : Token :=
  mkToken s s false false false false false.
End Tokenizer.

(** ASCII lower-casing, the instance at which the examples are run. *)
Definition ascii_lower (c : ascii) : ascii :=
  let n := nat_of_ascii c in
  if ((65 <=? n) && (n <=? 90))%nat then ascii_of_nat (n + 32) else c.

Fixpoint string_lower (s : string) : string :=
  match s with
  | EmptyString => EmptyString
  | String c s' => String (ascii_lower c) (string_lower s')
  end.

Definition ascii_str : PyStr := {| lower := string_lower |}.

(** ** Timestamps, dates and the corpus *)

(** A pandas [Timestamp] is a count of nanoseconds since the epoch (its
    [value]); timestamps are naive, as the index of the corpus is. *)
Abbreviation Timestamp := Z.

(** [dt.timedelta(seconds=n)], in the unit of [Timestamp]. *)
Definition timedelta_seconds (n : Z) : Z := n * 1000000000.

(** [Timestamp.min]: the value of the earliest timestamp pandas holds,
    1677-09-21 00:12:43.145224193. *)
Definition Timestamp_min : Z := - 9223372036854775807.

(** One second can be taken from the timestamp: the result is not before
    [Timestamp.min]. *)
Definition in_bounds (ts : Timestamp) : Prop :=
  Timestamp_min ≤ ts - timedelta_seconds 1.

#[global] Instance in_bounds_dec (ts : Timestamp) : Decision (in_bounds ts) :=
  Z_le_dec Timestamp_min (ts - timedelta_seconds 1).

Definition ns_per_day : Z := 86400 * 1000000000.

(** A [datetime.date]. *)
Record date := mkDate { year : Z; month : Z; day : Z }.

(** [Timestamp.date()]: the calendar day the timestamp falls on, in the
    proleptic Gregorian calendar. *)
Definition Timestamp_date (ts : Timestamp) : date :=
  let z := ts `div` ns_per_day + 719468 in
  let era := z `div` 146097 in
  let doe := z - era * 146097 in
  let yoe := (doe - doe `div` 1460 + doe `div` 36524 - doe `div` 146096) `div` 365 in
  let doy := doe - (365 * yoe + yoe `div` 4 - yoe `div` 100) in
  let mp := (5 * doy + 2) `div` 153 in
  let d := doy - (153 * mp + 2) `div` 5 + 1 in
  let m := if mp <? 10 then mp + 3 else mp - 9 in
  let y := yoe + era * 400 + (if m <=? 2 then 1 else 0) in
  mkDate y m d.

Definition digit_char (n : Z) : ascii :=
  ascii_of_nat (48 + Z.to_nat (n `mod` 10)).

(** The last [width] decimal digits of [n], zero-padded. *)
Fixpoint zfill (width : nat) (n : Z) : string :=
  match width with
  | O => ""
  | S width' => zfill width' (n `div` 10) +:+ String (digit_char n) ""
  end.

(** [str(d)] for a date: [yyyy-mm-dd]. *)
Definition date_str (d : date) : string :=
  zfill 4 (year d) +:+ "-" +:+ zfill 2 (month d) +:+ "-" +:+ zfill 2 (day d).

(** [str(ts.date())], the key under which a period is stored. *)
Definition label (ts : Timestamp) : string := date_str (Timestamp_date ts).

Fixpoint is_monotonic_increasing (l : list Z) : bool :=
  match l with
  | [] => true
  | x :: l' =>
      match l' with
      | [] => true
      | y :: _ => (x <=? y) && is_monotonic_increasing l'
      end
  end.

(** The corpus: a pandas [DataFrame] with a time-ordered [DatetimeIndex]
    and a column [tweet]. *)
Record DataFrame := mkDataFrame {
  rows : list (Timestamp * string);
  index_monotonic : is_monotonic_increasing (rows.*1) = true
}.

(** [df[lo:hi].tweet]: slicing a [DatetimeIndex] by two timestamps selects
    the rows from [lo] to [hi], both bounds included. *)
Definition loc_slice (df : DataFrame) (lo hi : Timestamp) : list string :=
  (filter (λ r, lo ≤ r.1 ∧ r.1 ≤ hi) (rows df)).*2.

(** The rows of the half-open interval from [lo] to [hi]. *)
Definition half_open_slice (df : DataFrame) (lo hi : Timestamp) : list string :=
  (filter (λ r, lo ≤ r.1 ∧ r.1 < hi) (rows df)).*2.

(** The timestamp is a whole number of seconds. *)
Definition whole_second (ts : Timestamp) : Prop :=
  ts `mod` timedelta_seconds 1 = 0.

(** [range(n)] *)
Definition range (n : Z) : list nat := seq 0 (Z.to_nat n).

(** [len(l)] *)
Definition len {A} (l : list A) : Z := Z.of_nat (length l).

(** The pairs [(l[i], l[i + 1])] of neighbours in a sequence. *)
Fixpoint adjacent {A} (l : list A) : list (A * A) :=
  match l with
  | x :: l' =>
      match l' with
      | [] => []
      | y :: _ => (x, y) :: adjacent l'
      end
  | [] => []
  end.

(** ** The packages the module imports *)

(** The spaCy pipeline [nlp] of [modules/spacy.py]: [nlp disable text] is
    the annotated document that [nlp.pipe(texts, disable=disable)] yields
    for [text]. *)
Class Spacy := { nlp : list string → string → Doc }.

(** The [beta_loss] argument of [_beta_divergence]. *)
Inductive beta_loss := frobenius | kullback_leibler | itakura_saito.

(** scikit-learn.  An estimator is constructed and fitted in one step:
    [tfidf_fit_transform tokenizer lowercase docs] stands for
    [TfidfVectorizer(tokenizer=.., lowercase=..)] followed by
    [fit_transform(docs)], and gives the fitted estimator with the
    transformed data; likewise for the other three.  A call that raises
    gives [inl] of the exception. *)
Class Sklearn := {
  lib_exn : Type;
  matrix : Type;
  float : Type;
  TfidfVectorizer : Type;
  CountVectorizer : Type;
  NMF : Type;
  LatentDirichletAllocation : Type;
  tfidf_fit_transform :
    (list string → list string) → bool → list (list string) →
    lib_exn + TfidfVectorizer * matrix;
  cv_fit_transform :
    (list string → list string) → bool → list (list string) →
    lib_exn + CountVectorizer * matrix;
  nmf_fit_transform : Z → Z → matrix → lib_exn + NMF * matrix;
  lda_fit_transform :
    Z → Z → matrix → lib_exn + LatentDirichletAllocation * matrix;
  tfidf_transform : TfidfVectorizer → list (list string) → lib_exn + matrix;
  nmf_transform : NMF → matrix → lib_exn + matrix;
  components_ : NMF → matrix;
  reconstruction_err_ : NMF → float;
  _beta_divergence :
    matrix → matrix → matrix → beta_loss → bool → lib_exn + float
}.

(** ** The class [TopicSeries] *)

Definition CR : string := String (ascii_of_nat 13) "".
Definition LF : string := String (ascii_of_nat 10) "".

Section TopicSeries.
Context `{PyStr} `{Spacy} `{Sklearn}.

(** The attributes that [__init__] creates. *)
Record TopicSeries := mkTopicSeries {
  n_components : Z;
  random_state : Z;
  cv_dict : gmap string CountVectorizer;
  tfidf_dict : gmap string TfidfVectorizer;
  nmf_dict : gmap string NMF;
  lda_dict : gmap string LatentDirichletAllocation
}.

(** [TopicSeries(n_components, random_state)] *)
Definition __init__ (n_components random_state : Z) : TopicSeries :=
  mkTopicSeries n_components random_state ∅ ∅ ∅ ∅.

(** [TopicSeries()] *)
Definition TopicSeries_default : TopicSeries := __init__ 5 42.

(** The exceptions the methods can end with: the [KeyError] of a
    dictionary subscript, the [IndexError] of a sequence subscript, the
    [OutOfBoundsDatetime] of pandas for a timestamp before
    [Timestamp.min], and whatever scikit-learn raises. *)
Inductive exn :=
| KeyError (key : string)
| IndexError
| OutOfBoundsDatetime
| LibraryError (e : lib_exn).

(** What a method can change: the instance and the console. *)
Record World := mkWorld {
  self : TopicSeries;
  stdout : list string
}.

(** A computation runs from a world to a world and ends with a value or
    with an exception; the world reached is kept in both cases. *)
Definition M (A : Type) : Type := World → World * (exn + A).

#[export] Instance M_ret : MRet M := λ A a w, (w, inr a).

#[export] Instance M_bind : MBind M := λ A B f m w,
  match m w with
  | (w', inl e) => (w', inl e)
  | (w', inr a) => f a w'
  end.

Definition raise {A} (e : exn) : M A := λ w, (w, inl e).

(** A call into scikit-learn. *)
Definition call {A} (r : lib_exn + A) : M A :=
  match r with
  | inl e => raise (LibraryError e)
  | inr a => mret a
  end.

(** Reading an attribute of [self]. *)
Definition get {A} (attr : TopicSeries → A) : M A :=
  λ w, (w, inr (attr (self w))).

(** [print(args.., end=end_)] *)
Definition print (args : list string) (end_ : string) : M unit :=
  λ w, (mkWorld (self w) (stdout w ++ [String.concat " " args +:+ end_]),
        inr tt).

(** [d[key]] *)
Definition getitem {V} (d : gmap string V) (key : string) : M V :=
  match d !! key with
  | Some v => mret v
  | None => raise (KeyError key)
  end.

(** [l[i]] for a sequence and a non-negative index *)
Definition index {A} (l : list A) (i : nat) : M A :=
  match l !! i with
  | Some x => mret x
  | None => raise IndexError
  end.

(** [ts - delta] for a timestamp and a [timedelta]: pandas raises when
    the result would be before [Timestamp.min], the first value of its
    range. *)
Definition Timestamp_sub (ts : Timestamp) (delta : Z) : M Timestamp :=
  if Timestamp_min <=? ts - delta then mret (ts - delta)
  else raise OutOfBoundsDatetime.

(** [self.tfidf_dict[date] = tfidf] and its three siblings *)
Definition set_tfidf_dict (key : string) (v : TfidfVectorizer) : M unit :=
  λ w, let s := self w in
    (mkWorld (mkTopicSeries (n_components s) (random_state s) (cv_dict s)
                (<[key:=v]> (tfidf_dict s)) (nmf_dict s) (lda_dict s))
             (stdout w), inr tt).

Definition set_nmf_dict (key : string) (v : NMF) : M unit :=
  λ w, let s := self w in
    (mkWorld (mkTopicSeries (n_components s) (random_state s) (cv_dict s)
                (tfidf_dict s) (<[key:=v]> (nmf_dict s)) (lda_dict s))
             (stdout w), inr tt).

Definition set_cv_dict (key : string) (v : CountVectorizer) : M unit :=
  λ w, let s := self w in
    (mkWorld (mkTopicSeries (n_components s) (random_state s)
                (<[key:=v]> (cv_dict s)) (tfidf_dict s) (nmf_dict s)
                (lda_dict s))
             (stdout w), inr tt).

Definition set_lda_dict (key : string) (v : LatentDirichletAllocation)
  : M unit :=
  λ w, let s := self w in
    (mkWorld (mkTopicSeries (n_components s) (random_state s) (cv_dict s)
                (tfidf_dict s) (nmf_dict s) (<[key:=v]> (lda_dict s)))
             (stdout w), inr tt).

(** [for x in xs: body], the local variables the body assigns to being
    threaded through as [acc]. *)
Fixpoint for_in {A S} (xs : list A) (body : A → S → M S) (acc : S) : M S :=
  match xs with
  | [] => mret acc
  | x :: xs' => acc' ← body x acc; for_in xs' body acc'
  end.

(** The static method [tokenizer]: the identity, handed to the
    vectorizers because the documents are token lists already. *)
Definition tokenizer (d : list string) : list string := d.

(** [calculate_nmf(self, date, data)] *)
Definition calculate_nmf (date : string) (data : list (list string))
  : M unit :=
  '(tfidf, tfidf_vecs) ← call (tfidf_fit_transform tokenizer false data);
  n ← get n_components;
  r ← get random_state;
  '(nmf, _) ← call (nmf_fit_transform n r tfidf_vecs);
  set_tfidf_dict date tfidf;;
  set_nmf_dict date nmf.

(** [calculate_lda(self, date, data)] *)
Definition calculate_lda (date : string) (data : list (list string))
  : M unit :=
  '(cv, count_vecs) ← call (cv_fit_transform tokenizer false data);
  n ← get n_components;
  r ← get random_state;
  '(lda, _) ← call (lda_fit_transform n r count_vecs);
  set_cv_dict date cv;;
  set_lda_dict date lda.

(** [[self.twitter_tokenizer(text) for text in nlp.pipe(sub_df,
    disable=["tagger", "parser", "ner"])]] *)
Definition nlp_tokenize (sub_df : list string) : list (list string) :=
  (λ text, twitter_tokenizer_default (nlp ["tagger"; "parser"; "ner"] text))
    <$> sub_df.

(** The documents of the period from [lo] to [hi], for a boundary [hi]
    that is [in_bounds]: the rows from [lo] up to one second before [hi],
    run through [nlp.pipe] and tokenized with the default flags. *)
Definition period_docs (df : DataFrame) (lo hi : Timestamp)
  : list (list string) :=
  let sub_df := loc_slice df lo (hi - timedelta_seconds 1) in
  nlp_tokenize sub_df.

(** The two statements that both loops start a period with:
    [df[lo:(hi - dt.timedelta(seconds=1))].tweet], where the subtraction
    can raise, and the tokenization of the rows. *)
Definition period_slice (df : DataFrame) (lo hi : Timestamp)
  : M (list (list string)) :=
  upper ← Timestamp_sub hi (timedelta_seconds 1);
  let sub_df := loc_slice df lo upper in
  mret (nlp_tokenize sub_df).

(** The body of the loop of [fit]. *)
Definition fit_body (df : DataFrame) (date_range : list Timestamp)
    (i : nat) (_ : unit) : M unit :=
  hi ← index date_range (i + 1);
  let str_date := label hi in
  print ["Working on : "; str_date] CR;;
  lo ← index date_range i;
  hi ← index date_range (i + 1);
  sub_df ← period_slice df lo hi;
  calculate_nmf str_date sub_df;;
  calculate_lda str_date sub_df.

(** [fit(self, df, date_range)] *)
Definition fit (df : DataFrame) (date_range : list Timestamp) : M unit :=
  for_in (range (len date_range - 1)) (fit_body df date_range) tt;;
  print [LF +:+ "Finished"] LF.

(** The body of the loop of [calc_rec_error]; [errs] holds the lists
    [model_err] and [new_err]. *)
Definition calc_rec_error_body (df : DataFrame)
    (date_range : list Timestamp) (i : nat)
    (errs : list float * list float) : M (list float * list float) :=
  let '(model_err, new_err) := errs in
  hi ← index date_range (i + 1);
  let str_date := label hi in
  lo ← index date_range i;
  let prev_str_date := label lo in
  print ["Working on : "; str_date] CR;;
  lo ← index date_range i;
  hi ← index date_range (i + 1);
  sub_df ← period_slice df lo hi;
  tfidf ← (d ← get tfidf_dict; getitem d prev_str_date);
  tfidf_vecs ← call (tfidf_transform tfidf sub_df);
  nmf ← (d ← get nmf_dict; getitem d prev_str_date);
  W ← call (nmf_transform nmf tfidf_vecs);
  nmf ← (d ← get nmf_dict; getitem d prev_str_date);
  new_rec_err ←
    call (_beta_divergence tfidf_vecs W (components_ nmf) frobenius true);
  nmf ← (d ← get nmf_dict; getitem d str_date);
  let rec_err := reconstruction_err_ nmf in
  mret (model_err ++ [rec_err], new_err ++ [new_rec_err]).

(** [calc_rec_error(self, df, date_range)] *)
Definition calc_rec_error (df : DataFrame) (date_range : list Timestamp)
  : M (list float * list float) :=
  errs ← for_in (range (len date_range - 1))
                (calc_rec_error_body df date_range) ([], []);
  print [LF +:+ "Finished"] LF;;
  mret errs.
End TopicSeries.

(** ** Vocabulary of the statements *)

Section Vocabulary.
Context `{PyStr} `{Spacy} `{Sklearn}.

(** The line a loop prints when it starts the period stored under [key]. *)
Definition working_on (key : string) : string :=
  String.concat " " ["Working on : "; key] +:+ CR.

Definition finished : string := LF +:+ "Finished" +:+ LF.

(** One turn of the loop of [fit], for the boundaries [lo] and [hi]. *)
Definition fit_period (df : DataFrame) (lo hi : Timestamp) : M unit :=
  let str_date := label hi in
  print ["Working on : "; str_date] CR;;
  sub_df ← period_slice df lo hi;
  calculate_nmf str_date sub_df;;
  calculate_lda str_date sub_df.

(** The estimators that [calculate_nmf] fits on [data]. *)
Definition nmf_models (n r : Z) (data : list (list string))
  : lib_exn + TfidfVectorizer * NMF :=
  match tfidf_fit_transform tokenizer false data with
  | inl e => inl e
  | inr (tfidf, tfidf_vecs) =>
      match nmf_fit_transform n r tfidf_vecs with
      | inl e => inl e
      | inr (nmf, _) => inr (tfidf, nmf)
      end
  end.

(** The estimators that [calculate_lda] fits on [data]. *)
Definition lda_models (n r : Z) (data : list (list string))
  : lib_exn + CountVectorizer * LatentDirichletAllocation :=
  match cv_fit_transform tokenizer false data with
  | inl e => inl e
  | inr (cv, count_vecs) =>
      match lda_fit_transform n r count_vecs with
      | inl e => inl e
      | inr (lda, _) => inr (cv, lda)
      end
  end.

Definition store_nmf (key : string) (tfidf : TfidfVectorizer) (nmf : NMF)
    (s : TopicSeries) : TopicSeries :=
  mkTopicSeries (n_components s) (random_state s) (cv_dict s)
    (<[key:=tfidf]> (tfidf_dict s)) (<[key:=nmf]> (nmf_dict s)) (lda_dict s).

Definition store_lda (key : string) (cv : CountVectorizer)
    (lda : LatentDirichletAllocation) (s : TopicSeries) : TopicSeries :=
  mkTopicSeries (n_components s) (random_state s) (<[key:=cv]> (cv_dict s))
    (tfidf_dict s) (nmf_dict s) (<[key:=lda]> (lda_dict s)).

(** Under [key] the store holds the four estimators fitted on [data]. *)
Definition fitted_on (s : TopicSeries) (key : string)
    (data : list (list string)) : Prop :=
  ∃ tfidf nmf cv lda,
    nmf_models (n_components s) (random_state s) data = inr (tfidf, nmf) ∧
    lda_models (n_components s) (random_state s) data = inr (cv, lda) ∧
    tfidf_dict s !! key = Some tfidf ∧ nmf_dict s !! key = Some nmf ∧
    cv_dict s !! key = Some cv ∧ lda_dict s !! key = Some lda.

(** The invariant of the store: a decomposition is stored only under a
    key that holds its weighting model too. *)
Definition store_consistent (s : TopicSeries) : Prop :=
  dom (nmf_dict s) ⊆ dom (tfidf_dict s) ∧ dom (lda_dict s) ⊆ dom (cv_dict s).

(** The two mappings of each pair hold the same keys: neither a
    weighting model nor a decomposition is stored without the other. *)
Definition store_paired (s : TopicSeries) : Prop :=
  dom (nmf_dict s) = dom (tfidf_dict s) ∧ dom (lda_dict s) = dom (cv_dict s).

(** One turn of the loop of [calc_rec_error], for the boundaries [lo]
    and [hi]. *)
Definition rec_error_period (df : DataFrame) (lo hi : Timestamp)
    (errs : list float * list float) : M (list float * list float) :=
  let '(model_err, new_err) := errs in
  let str_date := label hi in
  let prev_str_date := label lo in
  print ["Working on : "; str_date] CR;;
  sub_df ← period_slice df lo hi;
  tfidf ← (d ← get tfidf_dict; getitem d prev_str_date);
  tfidf_vecs ← call (tfidf_transform tfidf sub_df);
  nmf ← (d ← get nmf_dict; getitem d prev_str_date);
  W ← call (nmf_transform nmf tfidf_vecs);
  nmf ← (d ← get nmf_dict; getitem d prev_str_date);
  new_rec_err ←
    call (_beta_divergence tfidf_vecs W (components_ nmf) frobenius true);
  nmf ← (d ← get nmf_dict; getitem d str_date);
  let rec_err := reconstruction_err_ nmf in
  mret (model_err ++ [rec_err], new_err ++ [new_rec_err]).

(** For the boundaries [lo] and [hi], the slice of the period can be
    taken ([hi] is [in_bounds]), [own] is the reconstruction error
    stored with the model of the current period, and [carried] is the
    Frobenius residual ([beta_loss] [frobenius], square root taken) of
    the current data, weighted by the TF-IDF model of the previous
    period, against its reconstruction from the transform and the
    components of the NMF model of the previous period. *)
Definition pair_errors (s : TopicSeries) (df : DataFrame)
    (lo hi : Timestamp) (own carried : float) : Prop :=
  in_bounds hi ∧
  ∃ tfidf nmf_prev nmf_cur tfidf_vecs W,
    tfidf_dict s !! label lo = Some tfidf ∧
    nmf_dict s !! label lo = Some nmf_prev ∧
    nmf_dict s !! label hi = Some nmf_cur ∧
    tfidf_transform tfidf (period_docs df lo hi) = inr tfidf_vecs ∧
    nmf_transform nmf_prev tfidf_vecs = inr W ∧
    _beta_divergence tfidf_vecs W (components_ nmf_prev) frobenius true
      = inr carried ∧
    own = reconstruction_err_ nmf_cur.

(** The computation leaves a property of the instance in place, however
    it ends. *)
Definition preserves {A} (P : TopicSeries → Prop) (m : M A) : Prop :=
  ∀ w, P (self w) → P (self (m w).1).

Definition is_LibraryError (e : exn) : Prop := ∃ e', e = LibraryError e'.

End Vocabulary.

(** ** [display_components] *)

(** numpy, as [display_components] uses it: [float_le] is [<=] on the
    entries of an array, [tolist m] is the rows of a two-dimensional
    array in order, which is what iterating over it yields, and [argsort]
    is the method of a row. *)
Class Numpy `{Sklearn} := {
  float_le : float → float → Prop;
  tolist : matrix → list (list float);
  argsort : list float → list nat
}.

(** What [display_components] asks of its [model]: the attribute
    [components_]. *)
Class TopicModel `{Sklearn} (Model : Type) := {
  model_components : Model → matrix
}.

#[export] Instance NMF_TopicModel `{Sklearn} : TopicModel NMF :=
  {| model_components := components_ |}.

(** [l[:k]] *)
Definition slice_to {A} (k : Z) (l : list A) : list A :=
  if 0 <=? k then take (Z.to_nat k) l else take (Z.to_nat (len l + k)) l.

(** [enumerate(l)] *)
Definition enumerate {A} (l : list A) : list (nat * A) :=
  zip (seq 0 (length l)) l.

(** The decimal digits of [n], put before [acc]. *)
Fixpoint decimal (fuel : nat) (n : Z) (acc : string) : string :=
  match fuel with
  | O => acc
  | S fuel' =>
      let acc' := String (digit_char n) acc in
      if n <? 10 then acc' else decimal fuel' (n `div` 10) acc'
  end.

(** [str(n)] for an int that is not negative, as [format] prints it. *)
Definition int_str (n : nat) : string := decimal (S n) (Z.of_nat n) "".

Section Display.
Context `{Sklearn} `{!Numpy} {Model : Type} `{!TopicModel Model}.

(** [topic.argsort()[::-1][:top_display]] *)
Definition top_indices (top_display : Z) (topic : list float) : list nat :=
  slice_to top_display (reverse (argsort topic)).

(** The body of the loop of [display_components]. *)
Definition display_components_body (word_features : list string)
    (top_display : Z) (entry : nat * list float) (_ : unit) : M unit :=
  let '(topic_idx, topic) := entry in
  print ["Topic " +:+ int_str topic_idx +:+ ":"] LF;;
  let top_words_idx := top_indices top_display topic in
  top_words ← for_in top_words_idx
                (λ i top_words,
                   word ← index word_features i;
                   mret (top_words ++ [word])) [];
  print [String.concat " " top_words] LF.

(** [display_components(model, word_features, top_display)] *)
Definition display_components (model : Model) (word_features : list string)
    (top_display : Z) : M unit :=
  for_in (enumerate (tolist (model_components model)))
    (display_components_body word_features top_display) tt.

(** [display_components(model, word_features)] *)
Definition display_components_default (model : Model)
    (word_features : list string) : M unit :=
  display_components model word_features 5.

(** The line that announces topic [i]. *)
Definition topic_header (i : nat) : string :=
  ("Topic " +:+ int_str i +:+ ":") +:+ LF.

(** The words at the indices [idxs], those out of range left out. *)
Definition topic_words (word_features : list string) (idxs : list nat)
  : list string :=
  omap (λ i, word_features !! i) idxs.

(** The two lines printed for topic [i]. *)
Definition topic_lines (word_features : list string) (top_display : Z)
    (i : nat) (topic : list float) : list string :=
  [topic_header i;
   String.concat " " (topic_words word_features (top_indices top_display topic))
     +:+ LF].

(** What numpy promises of [argsort]: the indices of the row, each once, *)
Definition argsort_permutes (topic : list float) : Prop :=
  argsort topic ≡ₚ seq 0 (length topic).

(** in the order of ascending entries. *)
Definition argsort_ascending (topic : list float) : Prop :=
  ∀ i j a b x y, (i ≤ j)%nat →
    argsort topic !! i = Some a → argsort topic !! j = Some b →
    topic !! a = Some x → topic !! b = Some y → float_le x y.
End Display.

(** ** Fixtures: small instances of the imported packages *)

Module Fixture.
(** A stand-in for the annotation pipeline: one token per word of the
    text, the words being separated by single spaces. *)
Fixpoint words_from (s : string) (word : string) : list string :=
  match s with
  | EmptyString => [word]
  | String c s' =>
      if Ascii.eqb c " "%char then word :: words_from s' ""
      else words_from s' (word +:+ String c "")
  end.

Definition is_letter (c : ascii) : bool :=
  let n := nat_of_ascii c in
  (((65 <=? n) && (n <=? 90)) || ((97 <=? n) && (n <=? 122)))%nat.

Fixpoint all_letters (s : string) : bool :=
  match s with
  | EmptyString => true
  | String c s' => is_letter c && all_letters s'
  end.

Definition annotate (word : string) : Token :=
  {| text := word;
     lemma_ := word;
     like_url := String.prefix "http" word;
     is_piclink := String.prefix "pic.twitter.com" word;
     is_stop := bool_decide (word ∈ ["the"; "a"; "is"; "of"]);
     is_alpha := all_letters word;
     is_hashtag := String.prefix "#" word |}.

Definition spacy : Spacy :=
  {| nlp := λ _ text, annotate <$> words_from text "" |}.

(** A stand-in for scikit-learn.  A vectorizer is its vocabulary and
    refuses an empty one; the matrix of some documents is the documents
    themselves; a decomposition remembers its parameters and the matrix
    it was fitted on; the divergence of [X] from a model with components
    [Hm] counts the entries of [X] that [Hm] does not hold. *)
Definition fit_vocabulary (tokenizer : list string → list string)
    (lowercase : bool) (docs : list (list string))
  : string + list string * list (list string) :=
  let X := tokenizer <$> docs in
  match concat X with
  | [] => inl "empty vocabulary"
  | v => inr (v, X)
  end.

Definition sklearn : Sklearn :=
  {| lib_exn := string;
     matrix := list (list string);
     float := Z;
     TfidfVectorizer := list string;
     CountVectorizer := list string;
     NMF := Z * Z * list (list string);
     LatentDirichletAllocation := Z * Z * list (list string);
     tfidf_fit_transform := fit_vocabulary;
     cv_fit_transform := fit_vocabulary;
     nmf_fit_transform := λ n r X, inr ((n, r, X), X);
     lda_fit_transform := λ n r X, inr ((n, r, X), X);
     tfidf_transform := λ _ docs, inr docs;
     nmf_transform := λ _ X, inr X;
     components_ := λ m, m.2;
     reconstruction_err_ := λ _, 0;
     _beta_divergence := λ X _ Hm _ _,
       inr (len (filter (λ t, t ∉ concat Hm) (concat X))) |}.

(** Midnight of 2020-01-01, and offsets from it. *)
Definition day0 : Timestamp := 1577836800 * 1000000000.
Definition hours (n : Z) : Z := timedelta_seconds (3600 * n).
Definition days (n : Z) : Z := hours (24 * n).

(** Six tweets over three days. *)
Program Definition corpus : DataFrame :=
  {| rows := [ (day0 + hours 9, "Markets open higher");
               (day0 + hours 15, "the rally is #on");
               (day0 + days 1 + hours 10, "Oil prices fall");
               (day0 + days 1 + hours 16, "a slow day http://t.co/x");
               (day0 + days 2 + hours 11, "Stocks rally again");
               (day0 + days 2 + hours 12, "Oil is flat") ] |}.
Next Obligation. reflexivity. Qed.

(** A tweet in the last second of the first day. *)
Program Definition late_corpus : DataFrame :=
  {| rows := [ (day0 + hours 9, "Markets open higher");
               (day0 + days 1 - 500000000, "closing bell") ] |}.
Next Obligation. reflexivity. Qed.

(** The daily boundaries of the three days. *)
Definition daily : list Timestamp :=
  [day0; day0 + days 1; day0 + days 2; day0 + days 3].

(** Three boundaries within the first day. *)
Definition same_day : list Timestamp :=
  [day0; day0 + hours 12; day0 + hours 18].


(** The daily boundaries and one more day, which has no tweet. *)
Definition with_gap : list Timestamp := daily ++ [day0 + days 4].

#[local] Existing Instance ascii_str.
#[local] Existing Instance spacy.
#[local] Existing Instance sklearn.

(** A new instance, and the console before anything is printed. *)
Definition start : World := mkWorld TopicSeries_default [].

(** The state after [fit(corpus, daily)]. *)
Definition fitted : World := (fit corpus daily start).1.

(** The state after fitting the first day alone. *)
Definition fitted_first : World := (fit corpus [day0; day0 + days 1] start).1.

(** A stand-in for numpy on the matrices of [sklearn], whose entries are
    strings: the weight of an entry is its length, and [argsort] sorts the
    indices of a row by weight. *)
Definition weights (row : list string) : list Z :=
  (λ s, Z.of_nat (String.length s)) <$> row.

Definition by_weight : relation (Z * nat) := λ p q, p.1 ≤ q.1.

#[local] Instance by_weight_dec : RelDecision by_weight :=
  λ p q, decide (p.1 ≤ q.1).

Definition sort_indices (topic : list Z) : list nat :=
  (merge_sort by_weight (zip topic (seq 0 (length topic)))).*2.

Definition numpy : Numpy :=
  {| float_le := Z.le; tolist := λ m, weights <$> m; argsort := sort_indices |}.

(** The NMF model of the first day, and the vocabulary it was fitted on. *)
Definition first_model : Z * Z * list (list string) :=
  (5, 42, [["markets"; "open"; "higher"]; ["rally"; "#on"]]).

Definition first_vocabulary : list string :=
  ["markets"; "open"; "higher"; "rally"; "#on"].

(** The rows of the components of [first_model], as numpy sees them. *)
Definition first_topic : list (@float sklearn) := [7; 4; 6].

Definition second_topic : list (@float sklearn) := [5; 3].

(** The stand-in for scikit-learn again, with an LDA that never fits. *)
Definition sklearn_without_lda : Sklearn :=
  {| lib_exn := string;
     matrix := list (list string);
     float := Z;
     TfidfVectorizer := list string;
     CountVectorizer := list string;
     NMF := Z * Z * list (list string);
     LatentDirichletAllocation := Z * Z * list (list string);
     tfidf_fit_transform := fit_vocabulary;
     cv_fit_transform := fit_vocabulary;
     nmf_fit_transform := λ n r X, inr ((n, r, X), X);
     lda_fit_transform := λ _ _ _, inl "no convergence";
     tfidf_transform := λ _ docs, inr docs;
     nmf_transform := λ _ X, inr X;
     components_ := λ m, m.2;
     reconstruction_err_ := λ _, 0;
     _beta_divergence := λ X _ Hm _ _,
       inr (len (filter (λ t, t ∉ concat Hm) (concat X))) |}.
End Fixture.

(** ** The tokenizer: properties *)

Section TokenizerFacts.
Context `{PyStr}.
Variables (urls stop_words lowercase alpha_only hashtags lemma : bool).

Let body := twitter_tokenizer_body urls stop_words lowercase alpha_only hashtags lemma.
Let loop := twitter_tokenizer_loop urls stop_words lowercase alpha_only hashtags lemma.
Let tokenize := twitter_tokenizer urls stop_words lowercase alpha_only hashtags lemma.

Lemma twitter_tokenizer_loop_acc (doc : Doc) (tokens : list string) :
  loop doc tokens = tokens ++ omap body doc.
Proof.
  revert tokens. induction doc as [|t doc IH]; intros tokens; simpl.
  - by rewrite app_nil_r.
  - unfold loop in *. simpl. fold body. destruct (body t) as [s|]; simpl.
    + rewrite IH. by rewrite <- app_assoc.
    + apply IH.
Qed.

Lemma twitter_tokenizer_omap (doc : Doc) : tokenize doc = omap body doc.
Proof. apply (twitter_tokenizer_loop_acc doc []). Qed.

Lemma twitter_tokenizer_app (d1 d2 : Doc) :
  tokenize (d1 ++ d2) = tokenize d1 ++ tokenize d2.
Proof. rewrite !twitter_tokenizer_omap. apply omap_app. Qed.

Lemma twitter_tokenizer_body_rendered (t : Token) (s : string) :
  body t = Some s → s = rendered lowercase lemma t.
Proof.
  unfold body, twitter_tokenizer_body, rendered.
  repeat case_match; congruence.
Qed.

Lemma twitter_tokenizer_filter (doc : Doc) :
  tokenize doc =
  rendered lowercase lemma <$>
    filter (λ t, kept urls stop_words lowercase alpha_only hashtags lemma t = true) doc.
Proof.
  rewrite twitter_tokenizer_omap.
  induction doc as [|t doc IH]; [done|].
  rewrite filter_cons. simpl in *.
  destruct (decide _) as [K|K]; unfold kept in K;
    rewrite bool_decide_eq_true in K; fold body in K.
  - destruct K as [s E]. rewrite E. change (list_omap _ _ body doc) with (omap body doc).
    rewrite IH. simpl. f_equal.
    by apply twitter_tokenizer_body_rendered.
  - destruct (body t) as [s|]; [by destruct K|]. apply IH.
Qed.
End TokenizerFacts.

(** ** Neighbouring boundaries *)

Lemma adjacent_length {A} (l : list A) :
  length (adjacent l) = (length l - 1)%nat.
Proof.
  induction l as [|x [|y l] IH]; [done..|].
  change (adjacent (x :: y :: l)) with ((x, y) :: adjacent (y :: l)).
  simpl in *. lia.
Qed.

Lemma adjacent_lookup {A} (l : list A) (i : nat) (x y : A) :
  adjacent l !! i = Some (x, y) ↔ l !! i = Some x ∧ l !! S i = Some y.
Proof.
  revert i. induction l as [|a [|b l] IH]; intros i.
  - simpl. rewrite !lookup_nil. split; [done|by intros [? ?]].
  - destruct i; simpl; rewrite ?lookup_nil; (split; [done|by intros [? ?]]).
  - change (adjacent (a :: b :: l)) with ((a, b) :: adjacent (b :: l)).
    destruct i as [|i].
    + simpl. split; [by intros [= -> ->]|by intros [[= ->] [= ->]]].
    + rewrite !lookup_cons. simpl. apply IH.
Qed.

Lemma adjacent_app {A} (pre : list A) (x : A) (post : list A) :
  adjacent (pre ++ x :: post) = adjacent (pre ++ [x]) ++ adjacent (x :: post).
Proof.
  induction pre as [|a [|b pre] IH]; [done| |].
  - by destruct post.
  - change (adjacent (a :: b :: ?l)) with ((a, b) :: adjacent (b :: l)) in *.
    simpl in *.
    change (adjacent (a :: b :: ?l)) with ((a, b) :: adjacent (b :: l)).
    simpl. by rewrite IH.
Qed.

Lemma range_len_adjacent {A} (l : list A) :
  range (len l - 1) = seq 0 (length (adjacent l)).
Proof.
  unfold range, len. rewrite adjacent_length. f_equal. lia.
Qed.

(** ** The monad and the loops *)

Section MonadFacts.
Context `{PyStr} `{Spacy} `{Sklearn}.

Lemma bind_run {A B} (m : M A) (f : A → M B) (w : World) :
  (m ≫= f) w =
  match m w with
  | (w', inl e) => (w', inl e)
  | (w', inr a) => f a w'
  end.
Proof. reflexivity. Qed.

Lemma bind_ok {A B} (m : M A) (f : A → M B) (w w' : World) (a : A) :
  m w = (w', inr a) → (m ≫= f) w = f a w'.
Proof. intros E. by rewrite bind_run, E. Qed.

Lemma bind_raise {A B} (m : M A) (f : A → M B) (w w' : World) (e : exn) :
  m w = (w', inl e) → (m ≫= f) w = (w', inl e).
Proof. intros E. by rewrite bind_run, E. Qed.

Lemma for_in_app {A St} (xs ys : list A) (body : A → St → M St) (acc : St)
    (w : World) :
  for_in (xs ++ ys) body acc w =
  match for_in xs body acc w with
  | (w', inl e) => (w', inl e)
  | (w', inr acc') => for_in ys body acc' w'
  end.
Proof.
  revert acc w. induction xs as [|x xs IH]; intros acc w; [done|].
  simpl. rewrite !bind_run.
  destruct (body x acc w) as [w1 [e|acc1]]; [done|]. apply IH.
Qed.

(** A loop over the indices of a list is the loop over its elements. *)
Lemma for_in_seq_lookup {A St} (l : list A) (g : nat → St → M St)
    (g' : A → St → M St) (k : nat) :
  (∀ i x acc w, l !! i = Some x → g (k + i)%nat acc w = g' x acc w) →
  ∀ acc w, for_in (seq k (length l)) g acc w = for_in l g' acc w.
Proof.
  revert k. induction l as [|x l IH]; intros k Hg acc w; [done|].
  simpl. rewrite !bind_run.
  rewrite <- (Hg 0%nat x acc w eq_refl), Nat.add_0_r.
  destruct (g k acc w) as [w1 [e|acc1]]; [done|].
  apply IH. intros i y acc' w' Hi.
  rewrite <- (Hg (S i) y acc' w' Hi). f_equal. lia.
Qed.

(** *** Computations that keep a property of the instance *)

Lemma preserves_ret {A} P (a : A) : preserves P (mret a).
Proof. by intros w. Qed.

Lemma preserves_raise {A} P (e : exn) : preserves P (raise (A:=A) e).
Proof. by intros w. Qed.

Lemma preserves_call {A} P (r : lib_exn + A) : preserves P (call r).
Proof. by destruct r; intros w. Qed.

Lemma preserves_get {A} P (attr : TopicSeries → A) : preserves P (get attr).
Proof. by intros w. Qed.

Lemma preserves_print P args end_ : preserves P (print args end_).
Proof. by intros w. Qed.

Lemma preserves_getitem {V} P (d : gmap string V) key :
  preserves P (getitem d key).
Proof. unfold getitem. by destruct (d !! key); intros w. Qed.

Lemma preserves_index {A} P (l : list A) i : preserves P (index l i).
Proof. unfold index. by destruct (l !! i); intros w. Qed.

Lemma preserves_bind {A B} P (m : M A) (f : A → M B) :
  preserves P m → (∀ a, preserves P (f a)) → preserves P (m ≫= f).
Proof.
  intros Hm Hf w Pw. rewrite bind_run. specialize (Hm w Pw).
  destruct (m w) as [w' [e|a]]; simpl in *; [done|]. by apply Hf.
Qed.

Lemma preserves_for_in {A St} P (xs : list A) (body : A → St → M St) acc :
  (∀ x acc, preserves P (body x acc)) → preserves P (for_in xs body acc).
Proof.
  intros Hb. revert acc. induction xs as [|x xs IH]; intros acc; simpl.
  - apply preserves_ret.
  - apply preserves_bind; [apply Hb|apply IH].
Qed.
End MonadFacts.

(** ** The methods, one period at a time *)

Section PeriodFacts.
Context `{PyStr} `{Spacy} `{Sklearn}.

Lemma fit_body_period df (date_range : list Timestamp) i lo hi u w :
  date_range !! i = Some lo → date_range !! S i = Some hi →
  fit_body df date_range i u w = fit_period df lo hi w.
Proof.
  intros Hlo Hhi. unfold fit_body, fit_period, index.
  replace (i + 1)%nat with (S i) by lia. by rewrite Hlo, Hhi.
Qed.

Lemma calc_rec_error_body_period df (date_range : list Timestamp) i lo hi
    errs w :
  date_range !! i = Some lo → date_range !! S i = Some hi →
  calc_rec_error_body df date_range i errs w = rec_error_period df lo hi errs w.
Proof.
  intros Hlo Hhi. unfold calc_rec_error_body, rec_error_period, index.
  replace (i + 1)%nat with (S i) by lia. destruct errs. by rewrite Hlo, Hhi.
Qed.

(** The loop of [fit] runs through the neighbouring boundaries. *)
Lemma fit_adjacent df (date_range : list Timestamp) w :
  fit df date_range w =
  (for_in (adjacent date_range) (λ p _, fit_period df p.1 p.2) tt;;
   print [LF +:+ "Finished"] LF) w.
Proof.
  unfold fit. rewrite !bind_run, range_len_adjacent.
  rewrite (for_in_seq_lookup (adjacent date_range) _
             (λ p _, fit_period df p.1 p.2)); [done|].
  intros i [lo hi] u w' Hi. apply adjacent_lookup in Hi as [Hlo Hhi].
  by apply fit_body_period.
Qed.

(** So does the loop of [calc_rec_error]. *)
Lemma calc_rec_error_adjacent df (date_range : list Timestamp) w :
  calc_rec_error df date_range w =
  (errs ← for_in (adjacent date_range)
                 (λ p, rec_error_period df p.1 p.2) ([], []);
   print [LF +:+ "Finished"] LF;;
   mret errs) w.
Proof.
  unfold calc_rec_error. rewrite !bind_run, range_len_adjacent.
  rewrite (for_in_seq_lookup (adjacent date_range) _
             (λ p, rec_error_period df p.1 p.2)); [done|].
  intros i [lo hi] u w' Hi. apply adjacent_lookup in Hi as [Hlo Hhi].
  by apply calc_rec_error_body_period.
Qed.

Lemma calculate_nmf_run date data w :
  calculate_nmf date data w =
  match nmf_models (n_components (self w)) (random_state (self w)) data with
  | inl e => (w, inl (LibraryError e))
  | inr (tfidf, nmf) =>
      (mkWorld (store_nmf date tfidf nmf (self w)) (stdout w), inr tt)
  end.
Proof.
  unfold calculate_nmf, nmf_models. rewrite bind_run.
  destruct (tfidf_fit_transform tokenizer false data) as [e|[tfidf vecs]];
    simpl; [done|].
  unfold mbind, M_bind, get. simpl.
  by destruct (nmf_fit_transform _ _ vecs) as [e|[nmf W]].
Qed.

Lemma calculate_lda_run date data w :
  calculate_lda date data w =
  match lda_models (n_components (self w)) (random_state (self w)) data with
  | inl e => (w, inl (LibraryError e))
  | inr (cv, lda) =>
      (mkWorld (store_lda date cv lda (self w)) (stdout w), inr tt)
  end.
Proof.
  unfold calculate_lda, lda_models. rewrite bind_run.
  destruct (cv_fit_transform tokenizer false data) as [e|[cv vecs]];
    simpl; [done|].
  unfold mbind, M_bind, get. simpl.
  by destruct (lda_fit_transform _ _ vecs) as [e|[lda W]].
Qed.

(** Taking the slice of a period: the documents of the period, or the
    exception of the subtraction. *)
Lemma period_slice_run df lo hi (w : World) :
  period_slice df lo hi w =
  if decide (in_bounds hi) then (w, inr (period_docs df lo hi))
  else (w, inl OutOfBoundsDatetime).
Proof.
  unfold period_slice, Timestamp_sub, in_bounds. rewrite bind_run.
  destruct (decide _) as [Hin|Hout].
  - by rewrite (proj2 (Z.leb_le _ _) Hin).
  - by rewrite (proj2 (Z.leb_gt _ _)) by lia.
Qed.

(** A turn of [fit] at a boundary too close to [Timestamp.min] raises
    once the progress line is printed. *)
Lemma fit_period_out_of_bounds df lo hi (w : World) :
  ¬ in_bounds hi →
  fit_period df lo hi w =
  (mkWorld (self w) (stdout w ++ [working_on (label hi)]),
   inl OutOfBoundsDatetime).
Proof.
  intros Hout. unfold fit_period. rewrite !bind_run. cbn [print].
  by rewrite bind_run, period_slice_run, decide_False.
Qed.

Lemma fit_period_run df lo hi w :
  in_bounds hi →
  fit_period df lo hi w =
  let s := self w in
  let out := stdout w ++ [working_on (label hi)] in
  let data := period_docs df lo hi in
  match nmf_models (n_components s) (random_state s) data with
  | inl e => (mkWorld s out, inl (LibraryError e))
  | inr (tfidf, nmf) =>
      let s1 := store_nmf (label hi) tfidf nmf s in
      match lda_models (n_components s) (random_state s) data with
      | inl e => (mkWorld s1 out, inl (LibraryError e))
      | inr (cv, lda) =>
          (mkWorld (store_lda (label hi) cv lda s1) out, inr tt)
      end
  end.
Proof.
  intros Hin. unfold fit_period. rewrite !bind_run. cbn [print].
  rewrite bind_run, period_slice_run, decide_True by done.
  rewrite bind_run, calculate_nmf_run. cbn [self stdout].
  destruct (nmf_models _ _ _) as [e|[tfidf nmf]]; [done|].
  rewrite calculate_lda_run. cbn [self stdout store_nmf n_components random_state].
  by destruct (lda_models _ _ _) as [e|[cv lda]].
Qed.

(** A turn of [calc_rec_error] whose models are stored and whose calls
    succeed appends the two errors and leaves the instance alone. *)
Lemma rec_error_period_ok df lo hi own carried model_err new_err w :
  pair_errors (self w) df lo hi own carried →
  rec_error_period df lo hi (model_err, new_err) w =
  (mkWorld (self w) (stdout w ++ [working_on (label hi)]),
   inr (model_err ++ [own], new_err ++ [carried])).
Proof.
  intros (Hin & tfidf & nmf_prev & nmf_cur & vecs & W &
          Ht & Hp & Hc & Hvecs & HW & Hdiv & ->).
  unfold rec_error_period. rewrite !bind_run. cbn [print].
  rewrite bind_run, period_slice_run, decide_True by done.
  unfold mbind, M_bind, get, getitem. simpl.
  repeat (first [rewrite Ht|rewrite Hvecs|rewrite Hp|rewrite HW
                |rewrite Hdiv|rewrite Hc]; simpl).
  done.
Qed.

(** A turn of [calc_rec_error] at a boundary too close to
    [Timestamp.min] raises before it asks for any model. *)
Lemma rec_error_period_out_of_bounds df lo hi errs (w : World) :
  ¬ in_bounds hi →
  rec_error_period df lo hi errs w =
  (mkWorld (self w) (stdout w ++ [working_on (label hi)]),
   inl OutOfBoundsDatetime).
Proof.
  intros Hout. destruct errs as [model_err new_err].
  unfold rec_error_period. rewrite !bind_run. cbn [print].
  by rewrite bind_run, period_slice_run, decide_False.
Qed.

(** A turn whose previous period has no TF-IDF model stops at the first
    subscript. *)
Lemma rec_error_period_missing df lo hi errs w :
  in_bounds hi →
  tfidf_dict (self w) !! label lo = None →
  rec_error_period df lo hi errs w =
  (mkWorld (self w) (stdout w ++ [working_on (label hi)]),
   inl (KeyError (label lo))).
Proof.
  intros Hin Ht. destruct errs as [model_err new_err].
  unfold rec_error_period. rewrite !bind_run. cbn [print].
  rewrite bind_run, period_slice_run, decide_True by done.
  unfold mbind, M_bind, get, getitem. simpl.
  by rewrite Ht.
Qed.

(** A turn whose previous period has its models, and whose calls
    succeed, but whose current period has no NMF model stops at the last
    subscript. *)
Lemma rec_error_period_missing_current df lo hi errs w
    tfidf nmf tfidf_vecs W carried :
  in_bounds hi →
  tfidf_dict (self w) !! label lo = Some tfidf →
  nmf_dict (self w) !! label lo = Some nmf →
  tfidf_transform tfidf (period_docs df lo hi) = inr tfidf_vecs →
  nmf_transform nmf tfidf_vecs = inr W →
  _beta_divergence tfidf_vecs W (components_ nmf) frobenius true
    = inr carried →
  nmf_dict (self w) !! label hi = None →
  rec_error_period df lo hi errs w =
  (mkWorld (self w) (stdout w ++ [working_on (label hi)]),
   inl (KeyError (label hi))).
Proof.
  intros Hin Ht Hp Hv HW Hd Hc. destruct errs as [model_err new_err].
  unfold rec_error_period. rewrite !bind_run. cbn [print].
  rewrite bind_run, period_slice_run, decide_True by done.
  unfold mbind, M_bind, get, getitem. simpl.
  repeat (first [rewrite Ht|rewrite Hv|rewrite Hp|rewrite HW|rewrite Hd
                |rewrite Hc]; simpl).
  done.
Qed.
End PeriodFacts.

(** ** Claims about the tokenizer *)

Section TokenizerClaims.
Context `{PyStr}.

Lemma kept_default_not_stop (t : Token) :
  kept true true true true false false t = true → is_stop t = false.
Proof.
  unfold kept. rewrite bool_decide_eq_true. intros [s Hs]. revert Hs.
  unfold twitter_tokenizer_body.
  destruct (like_url t), (is_piclink t), (is_stop t); simpl; congruence.
Qed.

(** C4. With the default flags the tokenizer returns the lower-cased
    texts of a subsequence of the annotations of the document, in their
    order in the document; no annotation of that subsequence is a stop
    word, and the output is no longer than the document. *)
Theorem C4_tokenize_default (D : Doc) :
  let survivors :=
    filter (λ t, kept true true true true false false t = true) D in
  twitter_tokenizer_default D = (λ t, lower (text t)) <$> survivors ∧
  survivors `sublist_of` D ∧
  Forall (λ t, is_stop t = false) survivors ∧
  (length (twitter_tokenizer_default D) ≤ length D)%nat.
Proof.
  intros survivors.
  assert (E : twitter_tokenizer_default D = (λ t, lower (text t)) <$> survivors)
    by exact (twitter_tokenizer_filter true true true true false false D).
  split_and!.
  - exact E.
  - apply sublist_filter.
  - apply Forall_forall. intros t [Ht _]%list_elem_of_filter.
    by apply kept_default_not_stop.
  - rewrite E, length_fmap. apply length_filter.
Qed.

(** C5. With [alpha_only=True] and [hashtags=False], an annotation that
    is not alphabetic but is a hashtag, and is neither url-like, nor a
    picture link, nor a stop word, is retained wherever it stands in the
    document, whatever the other flags are. *)
Theorem C5_hashtag_exception (urls stop_words lowercase lemma : bool)
    (pre post : Doc) (t : Token) :
  is_alpha t = false → is_hashtag t = true → like_url t = false →
  is_piclink t = false → is_stop t = false →
  twitter_tokenizer urls stop_words lowercase true false lemma
    (pre ++ t :: post) =
  twitter_tokenizer urls stop_words lowercase true false lemma pre ++
  rendered lowercase lemma t ::
  twitter_tokenizer urls stop_words lowercase true false lemma post.
Proof.
  intros Ha Hh Hu Hp Hs.
  rewrite twitter_tokenizer_app. f_equal.
  rewrite !twitter_tokenizer_omap. simpl.
  unfold twitter_tokenizer_body at 1. by rewrite Ha, Hh, Hu, Hp, Hs.
Qed.

(** With [alpha_only=False] the test [not t.is_alpha & alpha_only] holds
    of every token, so every token that is not a hashtag is dropped. *)
Lemma twitter_tokenizer_alpha_off (urls stop_words lowercase hashtags lemma : bool)
    (D : Doc) :
  Forall (λ t, is_hashtag t = false) D →
  twitter_tokenizer urls stop_words lowercase false hashtags lemma D = [].
Proof.
  intros HD. rewrite twitter_tokenizer_omap.
  induction HD as [|t D Ht _ IH]; [done|]. simpl.
  change (list_omap _ _ ?f D) with (omap f D). rewrite IH.
  unfold twitter_tokenizer_body. rewrite Ht, andb_false_r. simpl.
  by repeat case_match.
Qed.

(** C6, at a document of one alphabetic word: the tokenizer returns the
    lower-cased word, and run again on that output, read as a plain
    annotation, with [alpha_only=False, stop_words=False, urls=False], it
    returns the empty list instead of the same sequence. *)
Theorem C6_rerun_drops_everything :
  let D := [mkToken "Hello" "hello" false false false true false] in
  twitter_tokenizer_default D = [lower "Hello"] ∧
  twitter_tokenizer false false true false false false
    (plain_token <$> twitter_tokenizer_default D) = [].
Proof. done. Qed.
End TokenizerClaims.


(** ** What the methods leave in place *)

Section FrameFacts.
Context `{PyStr} `{Spacy} `{Sklearn}.

Lemma preserves_period_slice P df lo hi :
  preserves P (period_slice df lo hi).
Proof.
  intros w Pw. rewrite period_slice_run. by destruct (decide _).
Qed.

(** Every step of a computation that only reads, prints, calls the
    library or raises keeps any property of the instance. *)
Ltac keep :=
  repeat first
    [ apply preserves_ret | apply preserves_raise | apply preserves_call
    | apply preserves_get | apply preserves_print | apply preserves_getitem
    | apply preserves_index | apply preserves_period_slice
    | lazymatch goal with
      | |- preserves _ (_ ≫= _) => apply preserves_bind; [|intros ?]
      end ].

Lemma rec_error_period_preserves P df lo hi errs :
  preserves P (rec_error_period df lo hi errs).
Proof. destruct errs. unfold rec_error_period. keep. Qed.

Lemma calc_rec_error_body_preserves P df date_range i errs :
  preserves P (calc_rec_error_body df date_range i errs).
Proof. destruct errs. unfold calc_rec_error_body. keep. Qed.

Lemma calc_rec_error_preserves P df date_range :
  preserves P (calc_rec_error df date_range).
Proof.
  unfold calc_rec_error. apply preserves_bind.
  - apply preserves_for_in. intros. apply calc_rec_error_body_preserves.
  - intros errs. keep.
Qed.

(** A property that both pairs of assignments keep is kept by the
    methods that fit. *)
Lemma calculate_nmf_keeps (P : TopicSeries → Prop) date data :
  (∀ key tfidf nmf s, P s → P (store_nmf key tfidf nmf s)) →
  preserves P (calculate_nmf date data).
Proof.
  intros HP w Hw. rewrite calculate_nmf_run.
  destruct (nmf_models _ _ _) as [e|[tfidf nmf]]; [done|]. by apply HP.
Qed.

Lemma calculate_lda_keeps (P : TopicSeries → Prop) date data :
  (∀ key cv lda s, P s → P (store_lda key cv lda s)) →
  preserves P (calculate_lda date data).
Proof.
  intros HP w Hw. rewrite calculate_lda_run.
  destruct (lda_models _ _ _) as [e|[cv lda]]; [done|]. by apply HP.
Qed.

Lemma fit_keeps (P : TopicSeries → Prop) df date_range :
  (∀ key tfidf nmf s, P s → P (store_nmf key tfidf nmf s)) →
  (∀ key cv lda s, P s → P (store_lda key cv lda s)) →
  preserves P (fit df date_range).
Proof.
  intros Hnmf Hlda.
  unfold fit. apply preserves_bind; [|intros ?; apply preserves_print].
  apply preserves_for_in. intros i u. unfold fit_body.
  keep; [by apply calculate_nmf_keeps|by apply calculate_lda_keeps].
Qed.

Lemma store_nmf_consistent key tfidf nmf s :
  store_consistent s → store_consistent (store_nmf key tfidf nmf s).
Proof.
  intros [Hn Hl]. split; simpl; [|done]. rewrite !dom_insert_L.
  by apply union_mono_l.
Qed.

Lemma store_lda_consistent key cv lda s :
  store_consistent s → store_consistent (store_lda key cv lda s).
Proof.
  intros [Hn Hl]. split; simpl; [done|]. rewrite !dom_insert_L.
  by apply union_mono_l.
Qed.

Lemma store_nmf_paired key tfidf nmf s :
  store_paired s → store_paired (store_nmf key tfidf nmf s).
Proof.
  intros [Hn Hl]. split; simpl; [|done]. by rewrite !dom_insert_L, Hn.
Qed.

Lemma store_lda_paired key cv lda s :
  store_paired s → store_paired (store_lda key cv lda s).
Proof.
  intros [Hn Hl]. split; simpl; [done|]. by rewrite !dom_insert_L, Hl.
Qed.

(** C9. Read as an inclusion ([store_consistent]: a key that holds a
    decomposition holds its weighting model too) or as an equality
    ([store_paired]: neither is stored without the other), the
    invariant holds when the instance is created, and each method keeps
    it however it ends, with a value or with an exception part-way
    through a run. *)
Theorem C9_store_consistent (P : TopicSeries → Prop) :
  P = store_consistent ∨ P = store_paired →
  (∀ n r, P (__init__ n r)) ∧
  (∀ date data, preserves P (calculate_nmf date data)) ∧
  (∀ date data, preserves P (calculate_lda date data)) ∧
  (∀ df date_range, preserves P (fit df date_range)) ∧
  (∀ df date_range, preserves P (calc_rec_error df date_range)).
Proof.
  intros [-> | ->]; split_and!; try by split.
  - intros. apply calculate_nmf_keeps, store_nmf_consistent.
  - intros. apply calculate_lda_keeps, store_lda_consistent.
  - intros. apply fit_keeps;
      [apply store_nmf_consistent|apply store_lda_consistent].
  - intros. apply calc_rec_error_preserves.
  - intros. apply calculate_nmf_keeps, store_nmf_paired.
  - intros. apply calculate_lda_keeps, store_lda_paired.
  - intros. apply fit_keeps; [apply store_nmf_paired|apply store_lda_paired].
  - intros. apply calc_rec_error_preserves.
Qed.

(** C10. [calc_rec_error] hands back the instance it was given: the
    four dictionaries, [n_components] and [random_state] are those of
    before the call, whether the call returns or raises. *)
Theorem C10_calc_rec_error_frame df date_range (w : World) :
  self (calc_rec_error df date_range w).1 = self w.
Proof.
  by apply (calc_rec_error_preserves (λ s, s = self w)).
Qed.
End FrameFacts.

(** ** The boundary sequence is not validated *)

Section BoundaryFacts.
Context `{PyStr} `{Spacy} `{Sklearn}.



End BoundaryFacts.

(** ** The drift evaluation *)

Section DriftClaims.
Context `{PyStr} `{Spacy} `{Sklearn}.

(** The loop of [calc_rec_error] over boundaries whose models are all
    stored and whose library calls all succeed. *)
Lemma rec_error_loop_ok df (s : TopicSeries) (pairs : list (Timestamp * Timestamp)) :
  Forall (λ p, ∃ own carried, pair_errors s df p.1 p.2 own carried) pairs →
  ∀ model_err new_err w, self w = s →
    ∃ owns carrieds w',
      for_in pairs (λ p, rec_error_period df p.1 p.2) (model_err, new_err) w
        = (w', inr (model_err ++ owns, new_err ++ carrieds)) ∧
      self w' = s ∧
      Forall3 (λ p own carried, pair_errors s df p.1 p.2 own carried)
        pairs owns carrieds.
Proof.
  induction 1 as [|[lo hi] pairs (own & carried & Hp) _ IH];
    intros model_err new_err w Hw.
  - exists [], [], w. rewrite !app_nil_r. by repeat split; [|constructor].
  - simpl in Hp.
    destruct (IH (model_err ++ [own]) (new_err ++ [carried])
                (mkWorld (self w) (stdout w ++ [working_on (label hi)])) Hw)
      as (owns & carrieds & w' & Hrun & Hs & Hall).
    exists (own :: owns), (carried :: carrieds), w'. split_and!.
    + cbn [for_in]. rewrite bind_run. cbn beta. cbn [fst snd].
      rewrite (rec_error_period_ok df lo hi own carried) by by rewrite Hw.
      rewrite Hrun. by rewrite <- !app_assoc.
    + done.
    + by constructor.
Qed.

(** The state in which the loop of a driver that returned had ended. *)
Lemma calc_rec_error_returned df (date_range : list Timestamp) w w1 errs :
  calc_rec_error df date_range w = (w1, inr errs) →
  ∃ w0, for_in (adjacent date_range) (λ p, rec_error_period df p.1 p.2)
          ([], []) w = (w0, inr errs) ∧ self w0 = self w.
Proof.
  rewrite calc_rec_error_adjacent, bind_run.
  pose proof (preserves_for_in (λ s, s = self w) (adjacent date_range)
                (λ p, rec_error_period df p.1 p.2) ([], [])
                (λ p errs, rec_error_period_preserves _ df p.1 p.2 errs)
                w eq_refl) as Hs.
  destruct (for_in _ _ _ w) as [w0 [e|errs0]]; [done|].
  intros [= <- <-]. by exists w0.
Qed.

(** C1, with the preconditions the code needs.  When, for each pair of
    neighbouring boundaries, the second is [in_bounds], the store holds
    a TF-IDF and an NMF model under the label of the first and an NMF
    model under the label of the second, and the library's two
    transforms and its divergence succeed on the data of the pair, [calc_rec_error] returns two lists
    of one entry per pair, in the order of the boundaries: the stored
    reconstruction error of the current model, and the Frobenius
    residual of the current data under the previous models. *)
Theorem C1_calc_rec_error_returns df (date_range : list Timestamp) w :
  (∀ i lo hi, date_range !! i = Some lo → date_range !! S i = Some hi →
     ∃ own carried, pair_errors (self w) df lo hi own carried) →
  ∃ model_err new_err w',
    calc_rec_error df date_range w = (w', inr (model_err, new_err)) ∧
    length model_err = (length date_range - 1)%nat ∧
    length new_err = (length date_range - 1)%nat ∧
    ∀ i lo hi, date_range !! i = Some lo → date_range !! S i = Some hi →
      ∃ own carried,
        model_err !! i = Some own ∧ new_err !! i = Some carried ∧
        pair_errors (self w) df lo hi own carried.
Proof.
  intros Hready.
  assert (Hall : Forall (λ p, ∃ own carried,
                   pair_errors (self w) df p.1 p.2 own carried)
                   (adjacent date_range)).
  { apply Forall_lookup. intros i [lo hi] [Hlo Hhi]%adjacent_lookup.
    by apply (Hready i). }
  destruct (rec_error_loop_ok df (self w) _ Hall [] [] w eq_refl)
    as (owns & carrieds & w' & Hrun & Hs & H3).
  exists owns, carrieds, (mkWorld (self w') (stdout w' ++ [finished])).
  split_and!.
  - rewrite calc_rec_error_adjacent, bind_run, Hrun. done.
  - by rewrite <- (Forall3_length_lm _ _ _ _ H3), adjacent_length.
  - by rewrite <- (Forall3_length_lr _ _ _ _ H3), adjacent_length.
  - intros i lo hi Hlo Hhi.
    assert (Hi : adjacent date_range !! i = Some (lo, hi))
      by by apply adjacent_lookup.
    destruct (Forall3_lookup_l _ _ _ _ _ _ H3 Hi)
      as (own & carried & Ho & Hc & Hp).
    by exists own, carried.
Qed.

(** A turn of the loop of [calc_rec_error] that returned. *)
Lemma rec_error_period_returned df lo hi model_err new_err (w w' : World) r :
  rec_error_period df lo hi (model_err, new_err) w = (w', inr r) →
  ∃ own carried,
    r = (model_err ++ [own], new_err ++ [carried]) ∧
    pair_errors (self w) df lo hi own carried ∧
    w' = mkWorld (self w) (stdout w ++ [working_on (label hi)]).
Proof.
  unfold rec_error_period. rewrite !bind_run. cbn [print].
  rewrite bind_run, period_slice_run.
  destruct (decide (in_bounds hi)) as [Hin|]; [|done].
  unfold mbind, M_bind, get, getitem. simpl.
  destruct (tfidf_dict (self w) !! label lo) as [tfidf|] eqn:Ht; [|done].
  simpl.
  destruct (tfidf_transform tfidf (period_docs df lo hi)) as [e|vecs] eqn:Hv;
    [done|]. simpl.
  destruct (nmf_dict (self w) !! label lo) as [nmf|] eqn:Hp; [|done]. simpl.
  destruct (nmf_transform nmf vecs) as [e|W] eqn:HW; [done|]. simpl.
  rewrite Hp. simpl.
  destruct (_beta_divergence vecs W (components_ nmf) frobenius true)
    as [e|carried] eqn:Hd; [done|]. simpl.
  destruct (nmf_dict (self w) !! label hi) as [nmf_cur|] eqn:Hc; [|done].
  simpl. intros [= <- <-].
  exists (reconstruction_err_ nmf_cur), carried. split_and!; [done| |done].
  split; [done|]. by exists tfidf, nmf, nmf_cur, vecs, W.
Qed.

(** The loop of [calc_rec_error], when it runs to its end. *)
Lemma rec_error_loop_returned df (pairs : list (Timestamp * Timestamp)) :
  ∀ model_err new_err (w w' : World) r,
  for_in pairs (λ p, rec_error_period df p.1 p.2) (model_err, new_err) w
    = (w', inr r) →
  ∃ owns carrieds,
    r = (model_err ++ owns, new_err ++ carrieds) ∧
    Forall3 (λ p own carried, pair_errors (self w) df p.1 p.2 own carried)
      pairs owns carrieds ∧
    self w' = self w ∧
    stdout w' = stdout w ++ (working_on ∘ label <$> pairs.*2).
Proof.
  induction pairs as [|[lo hi] pairs IH]; intros model_err new_err w w' r.
  - intros [= <- <-]. exists [], []. rewrite !app_nil_r.
    by split_and!; [|constructor|..].
  - cbn [for_in]. rewrite bind_run. cbn beta. cbn [fst snd].
    destruct (rec_error_period df lo hi (model_err, new_err) w)
      as [w1 [e|r1]] eqn:E; [done|].
    apply rec_error_period_returned in E as (own & carried & -> & Hp & ->).
    intros (owns & carrieds & -> & Hall & Hs & Hout)%IH.
    cbn [self stdout] in *.
    exists (own :: owns), (carried :: carrieds). split_and!.
    + by rewrite <- !app_assoc.
    + by constructor.
    + done.
    + by rewrite Hout, <- app_assoc.
Qed.

End DriftClaims.

(** ** Fitting a range of dates *)

Lemma adjacent_snd {A} (l : list A) : (adjacent l).*2 = tail l.
Proof.
  induction l as [|x [|y l] IH]; [done..|].
  change (adjacent (x :: y :: l)) with ((x, y) :: adjacent (y :: l)).
  rewrite fmap_cons, IH. done.
Qed.

(** On whole seconds, taking one second off an inclusive upper bound makes
    it exclusive. *)
Lemma loc_slice_half_open df (lo hi : Timestamp) :
  Forall whole_second (rows df).*1 → whole_second hi →
  loc_slice df lo (hi - timedelta_seconds 1) = half_open_slice df lo hi.
Proof.
  unfold loc_slice, half_open_slice, whole_second, timedelta_seconds.
  intros Hrows Hhi. f_equal. generalize dependent (rows df).
  intros l Hl. induction l as [|[ts txt] l IH]; [done|].
  apply Forall_cons in Hl as [Hts Hl]. simpl in Hts.
  rewrite !filter_cons, IH by done. simpl.
  apply Z.div_exact in Hts; [|lia]. apply Z.div_exact in Hhi; [|lia].
  destruct (decide (lo ≤ ts ∧ ts ≤ hi - 1 * 1000000000)) as [D|D],
    (decide (lo ≤ ts ∧ ts < hi)) as [D'|D']; try done; exfalso; lia.
Qed.

Section FitClaims.
Context `{PyStr} `{Spacy} `{Sklearn}.

(** The state in which the loop of a [fit] that returned had ended. *)
Lemma fit_returned df (date_range : list Timestamp) w w1 :
  fit df date_range w = (w1, inr tt) →
  ∃ w0, for_in (adjacent date_range) (λ p _, fit_period df p.1 p.2) tt w
          = (w0, inr tt) ∧
        w1 = mkWorld (self w0) (stdout w0 ++ [finished]).
Proof.
  rewrite fit_adjacent, bind_run.
  destruct (for_in _ _ _ w) as [w0 [e|[]]]; [done|].
  intros [= <-]. by exists w0.
Qed.



Lemma fitted_on_store key data tfidf nmf cv lda s :
  nmf_models (n_components s) (random_state s) data = inr (tfidf, nmf) →
  lda_models (n_components s) (random_state s) data = inr (cv, lda) →
  fitted_on (store_lda key cv lda (store_nmf key tfidf nmf s)) key data.
Proof.
  intros Hn Hl. exists tfidf, nmf, cv, lda. simpl.
  by rewrite !lookup_insert_eq.
Qed.

Lemma fitted_on_store_other key key' data tfidf nmf cv lda s :
  key ≠ key' → fitted_on s key' data →
  fitted_on (store_lda key cv lda (store_nmf key tfidf nmf s)) key' data.
Proof.
  intros Hne (tfidf' & nmf' & cv' & lda' & ? & ? & ? & ? & ? & ?).
  exists tfidf', nmf', cv', lda'. simpl.
  by rewrite !lookup_insert_ne.
Qed.

(** What one turn of the loop of [fit] that returned has done. *)
Lemma fit_period_returned df lo hi w w' :
  fit_period df lo hi w = (w', inr tt) →
  ∃ tfidf nmf cv lda,
    nmf_models (n_components (self w)) (random_state (self w))
      (period_docs df lo hi) = inr (tfidf, nmf) ∧
    lda_models (n_components (self w)) (random_state (self w))
      (period_docs df lo hi) = inr (cv, lda) ∧
    w' = mkWorld (store_lda (label hi) cv lda
                    (store_nmf (label hi) tfidf nmf (self w)))
                 (stdout w ++ [working_on (label hi)]).
Proof.
  destruct (decide (in_bounds hi)) as [Hin|Hout];
    [|by rewrite fit_period_out_of_bounds].
  rewrite fit_period_run by done. cbn zeta.
  destruct (nmf_models _ _ _) as [e|[tfidf nmf]]; [done|].
  destruct (lda_models _ _ _) as [e|[cv lda]]; [done|].
  intros [= <-]. by exists tfidf, nmf, cv, lda.
Qed.

(** A turn of the loop of [fit] returns only at a boundary that is
    [in_bounds]. *)
Lemma fit_period_returned_in_bounds df lo hi w w' :
  fit_period df lo hi w = (w', inr tt) → in_bounds hi.
Proof.
  destruct (decide (in_bounds hi)) as [Hin|Hout]; [done|].
  by rewrite fit_period_out_of_bounds.
Qed.
End FitClaims.

Lemma not_elem_of_later {A} (l : list A) (i : nat) (x : A) :
  NoDup l → l !! i = Some x → x ∉ drop (S i) l.
Proof.
  intros Hl Hi. rewrite <- (take_drop_middle l i x Hi) in Hl.
  apply NoDup_app in Hl as (_ & _ & Hl). by apply NoDup_cons in Hl as [? _].
Qed.

Lemma union_insert_keys (k : string) (D L : gset string) :
  ({[k]} ∪ D) ∪ L = D ∪ ({[k]} ∪ L).
Proof. rewrite (comm_L (∪) {[k]} D). by rewrite <- (assoc_L (∪)). Qed.

Section FitRange.
Context `{PyStr} `{Spacy} `{Sklearn}.

(** The loop of [fit], when it runs to its end. *)
Lemma fit_loop_ok df (pairs : list (Timestamp * Timestamp)) :
  ∀ w w',
  for_in pairs (λ p _, fit_period df p.1 p.2) tt w = (w', inr tt) →
  n_components (self w') = n_components (self w) ∧
  random_state (self w') = random_state (self w) ∧
  stdout w' = stdout w ++ (working_on ∘ label <$> pairs.*2) ∧
  dom (cv_dict (self w'))
    = dom (cv_dict (self w)) ∪ list_to_set (label <$> pairs.*2) ∧
  dom (tfidf_dict (self w'))
    = dom (tfidf_dict (self w)) ∪ list_to_set (label <$> pairs.*2) ∧
  dom (nmf_dict (self w'))
    = dom (nmf_dict (self w)) ∪ list_to_set (label <$> pairs.*2) ∧
  dom (lda_dict (self w'))
    = dom (lda_dict (self w)) ∪ list_to_set (label <$> pairs.*2) ∧
  (∀ key data, key ∉ label <$> pairs.*2 →
     fitted_on (self w) key data → fitted_on (self w') key data) ∧
  (∀ i lo hi, pairs !! i = Some (lo, hi) →
     label hi ∉ label <$> (drop (S i) pairs).*2 →
     fitted_on (self w') (label hi) (period_docs df lo hi)).
Proof.
  induction pairs as [|[lo hi] pairs IH]; intros w w'.
  - intros [= <-]. cbn [fmap list_fmap list_to_set foldr].
    rewrite app_nil_r, !(right_id_L ∅ (∪)). by split_and!.
  - cbn [for_in]. rewrite bind_run. cbn beta. cbn [fst snd].
    destruct (fit_period df lo hi w) as [w1 [e|[]]] eqn:E; [done|].
    apply fit_period_returned in E as (tfidf & nmf & cv & lda & Hn & Hl & ->).
    intros (Hn' & Hr' & Hout & Hcv & Htf & Hnmf & Hlda & Hframe & Hidx)%IH.
    cbn [self stdout store_lda store_nmf n_components random_state
         cv_dict tfidf_dict nmf_dict lda_dict] in *.
    rewrite !fmap_cons, list_to_set_cons. cbn [snd].
    rewrite dom_insert_L, union_insert_keys in Hcv.
    rewrite dom_insert_L, union_insert_keys in Htf.
    rewrite dom_insert_L, union_insert_keys in Hnmf.
    rewrite dom_insert_L, union_insert_keys in Hlda.
    split_and!; try done.
    + by rewrite Hout, <- app_assoc.
    + intros key data [Hne Hnin]%not_elem_of_cons Hfit.
      apply Hframe; [done|]. by apply fitted_on_store_other.
    + intros [|i] lo' hi' Hi Hlater.
      * injection Hi as <- <-. apply Hframe; [done|].
        by apply fitted_on_store.
      * by apply (Hidx i).
Qed.

(** C2, as the code has it.  Let the labels of the boundaries after the
    first be pairwise distinct, and let [fit] return on a new instance.
    Then each of the four dictionaries holds exactly those labels, one
    per period; under the label of [b(i+1)] stand the four estimators
    fitted on the tokenized rows from [b(i)] to one second before
    [b(i+1)], both included, which are the rows of the half-open
    interval when the timestamps are whole seconds; and the periods were
    taken in the order of the sequence. *)
Theorem C2_fit_populates df (date_range : list Timestamp) n r out w' :
  NoDup (label <$> tail date_range) →
  fit df date_range (mkWorld (__init__ n r) out) = (w', inr tt) →
  let keys : gset string := list_to_set (label <$> tail date_range) in
  (dom (cv_dict (self w')) = keys ∧ dom (tfidf_dict (self w')) = keys ∧
   dom (nmf_dict (self w')) = keys ∧ dom (lda_dict (self w')) = keys) ∧
  size keys = (length date_range - 1)%nat ∧
  (∀ i lo hi, date_range !! i = Some lo → date_range !! S i = Some hi →
     fitted_on (self w') (label hi) (period_docs df lo hi) ∧
     (Forall whole_second (rows df).*1 → whole_second hi →
      period_docs df lo hi = nlp_tokenize (half_open_slice df lo hi))) ∧
  stdout w' = out ++ (working_on ∘ label <$> tail date_range) ++ [finished].
Proof.
  intros Hnodup (w0 & Hloop & ->)%fit_returned keys.
  apply fit_loop_ok in Hloop
    as (_ & _ & Hout & Hcv & Htf & Hnmf & Hlda & _ & Hidx).
  rewrite adjacent_snd in Hout, Hcv, Htf, Hnmf, Hlda.
  cbn [self stdout __init__ cv_dict tfidf_dict nmf_dict lda_dict] in *.
  rewrite dom_empty_L, (left_id_L ∅ (∪)) in Hcv.
  rewrite dom_empty_L, (left_id_L ∅ (∪)) in Htf.
  rewrite dom_empty_L, (left_id_L ∅ (∪)) in Hnmf.
  rewrite dom_empty_L, (left_id_L ∅ (∪)) in Hlda.
  split_and!; try done.
  - unfold keys. rewrite size_list_to_set by done.
    rewrite length_fmap. destruct date_range; simpl; lia.
  - intros i lo hi Hlo Hhi. split.
    + apply (Hidx i lo hi); [by apply adjacent_lookup|].
      rewrite fmap_drop, adjacent_snd, fmap_drop.
      apply not_elem_of_later; [done|].
      rewrite list_lookup_fmap, <- adjacent_snd, list_lookup_fmap.
      by rewrite (proj2 (adjacent_lookup date_range i lo hi)).
    + intros Hrows Hwhole. unfold period_docs.
      by rewrite loc_slice_half_open.
  - by rewrite Hout, <- app_assoc.
Qed.
End FitRange.

(** ** The statements at the fixtures *)

Section Examples.
Import Fixture.
#[local] Existing Instance ascii_str.
#[local] Existing Instance spacy.
#[local] Existing Instance sklearn.

(** The calendar, at the epoch, before it, and around a leap day. *)
Example label_epoch : label 0 = "1970-01-01" ∧ label (-1) = "1969-12-31".
Proof. by vm_compute. Qed.

Example label_leap_day :
  label day0 = "2020-01-01" ∧
  label (day0 + days 59) = "2020-02-29" ∧
  label (day0 + days 60 - 1) = "2020-02-29" ∧
  label (day0 + days 60) = "2020-03-01".
Proof. by vm_compute. Qed.

(** The first day of the corpus, as [fit] and [calc_rec_error] see it. *)
Example period_docs_first_day :
  period_docs corpus day0 (day0 + days 1)
    = [["markets"; "open"; "higher"]; ["rally"; "#on"]].
Proof. by vm_compute. Qed.

(** What [fit(corpus, daily)] prints, and the drift it then measures. *)
Example fit_daily_stdout :
  stdout fitted
    = ["Working on :  2020-01-02" +:+ CR; "Working on :  2020-01-03" +:+ CR;
       "Working on :  2020-01-04" +:+ CR; finished].
Proof. by vm_compute. Qed.

Example calc_rec_error_daily :
  (calc_rec_error corpus (tail daily) fitted).2 = inr ([0; 0], [5; 4]).
Proof. by vm_compute. Qed.

(** The hashtag of the tweet [the rally is #on] is kept. *)
Lemma C5_hashtag_exception_witness :
  twitter_tokenizer true true true true false false
    (annotate <$> ["the"; "rally"; "is"; "#on"]) = ["rally"; "#on"].
Proof.
  exact (C5_hashtag_exception true true true false
           (annotate <$> ["the"; "rally"; "is"]) [] (annotate "#on")
           eq_refl eq_refl eq_refl eq_refl eq_refl).
Defined.

(** After [fit(corpus, daily)], the drift of the second and of the third
    day is evaluated from the boundaries after the first. *)
Lemma C1_calc_rec_error_returns_witness :
  ∃ model_err new_err w',
    calc_rec_error corpus (tail daily) fitted
      = (w', inr (model_err, new_err)) ∧
    length model_err = 2%nat ∧ length new_err = 2%nat ∧
    ∀ i lo hi, tail daily !! i = Some lo → tail daily !! S i = Some hi →
      ∃ own carried,
        model_err !! i = Some own ∧ new_err !! i = Some carried ∧
        pair_errors (self fitted) corpus lo hi own carried.
Proof.
  apply (C1_calc_rec_error_returns corpus (tail daily) fitted).
  intros i lo hi Hlo Hhi.
  destruct i as [|[|[|i]]]; cbn in Hlo, Hhi; try discriminate;
    injection Hlo as <-; injection Hhi as <-;
    eexists _, _; (split; [by apply (bool_decide_unpack _)|]);
    eexists _, _, _, _, _; vm_compute; by split_and!.
Defined.

(** On a new instance every daily boundary is fitted under its label. *)
Lemma C2_fit_populates_witness :
  let keys : gset string := list_to_set (label <$> tail daily) in
  (dom (cv_dict (self fitted)) = keys ∧
   dom (tfidf_dict (self fitted)) = keys ∧
   dom (nmf_dict (self fitted)) = keys ∧
   dom (lda_dict (self fitted)) = keys) ∧
  size keys = 3%nat ∧
  (∀ i lo hi, daily !! i = Some lo → daily !! S i = Some hi →
     fitted_on (self fitted) (label hi) (period_docs corpus lo hi) ∧
     (Forall whole_second (rows corpus).*1 → whole_second hi →
      period_docs corpus lo hi = nlp_tokenize (half_open_slice corpus lo hi))) ∧
  stdout fitted = [] ++ (working_on ∘ label <$> tail daily) ++ [finished].
Proof.
  apply (C2_fit_populates corpus daily 5 42 [] fitted).
  - apply (bool_decide_unpack _). by vm_compute.
  - by vm_compute.
Defined.




(** The run over the boundaries with the empty day is aborted, and leaves
    a consistent store. *)
Lemma C9_store_consistent_witness :
  store_consistent (self (fit corpus with_gap start).1).
Proof.
  exact (proj1 (proj2 (proj2 (proj2
           (C9_store_consistent store_consistent (or_introl eq_refl)))))
           corpus with_gap start
           (proj1 (C9_store_consistent store_consistent (or_introl eq_refl))
              5 42)).
Defined.

(** C1 as stated fails: the first day is fitted, so the period before
    the boundaries [day 1, day 2] is stored, but nothing is stored under
    the second boundary and the call raises. *)
Lemma C1_counterexample :
  is_Some (tfidf_dict (self fitted_first) !! label (day0 + days 1)) ∧
  is_Some (nmf_dict (self fitted_first) !! label (day0 + days 1)) ∧
  (calc_rec_error corpus [day0 + days 1; day0 + days 2] fitted_first).2
    = inl (KeyError "2020-01-03").
Proof.
  split_and!; [eexists; by vm_compute..|by vm_compute].
Qed.

(** C2 as stated fails.  Three boundaries within one day give one label,
    not two, and the estimators stored under it are not those of the
    first interval; and a tweet in the last second before a boundary is
    in the half-open interval but not among the rows that are fitted. *)
Lemma C2_counterexample :
  (let w' := (fit corpus same_day start).1 in
   (fit corpus same_day start).2 = inr tt ∧
   label <$> tail same_day = ["2020-01-01"; "2020-01-01"] ∧
   size (tfidf_dict (self w')) = 1%nat ∧
   ¬ fitted_on (self w') (label (day0 + hours 12))
       (period_docs corpus day0 (day0 + hours 12))) ∧
  (period_docs late_corpus day0 (day0 + days 1)
     = [["markets"; "open"; "higher"]] ∧
   nlp_tokenize (half_open_slice late_corpus day0 (day0 + days 1))
     = [["markets"; "open"; "higher"]; ["closing"; "bell"]]).
Proof.
  split; [|by vm_compute].
  split_and!; [by vm_compute..|].
  intros (tfidf & nmf & cv & lda & Hn & _ & Ht & _).
  vm_compute in Hn. vm_compute in Ht. congruence.
Qed.



End Examples.


(** * Further properties *)

(** ** The tokenizer under every flag setting *)

Lemma omap_filter_None {A B} (f : A → option B) (Q : A → Prop)
    `{∀ x, Decision (Q x)} (l : list A) :
  (∀ x, ¬ Q x → f x = None) → omap f l = omap f (filter Q l).
Proof.
  intros Hf. induction l as [|x l IH]; [done|].
  rewrite filter_cons. destruct (decide (Q x)) as [HQ|HQ]; simpl.
  - change (list_omap _ _ f ?k) with (omap f k). by rewrite IH.
  - change (list_omap _ _ f ?k) with (omap f k). by rewrite (Hf x HQ), IH.
Qed.

Lemma sublist_filter_impl {A} (P Q : A → Prop) `{∀ x, Decision (P x)}
    `{∀ x, Decision (Q x)} (l : list A) :
  (∀ x, P x → Q x) → filter P l `sublist_of` filter Q l.
Proof.
  intros HPQ. induction l as [|x l IH]; [done|].
  rewrite !filter_cons.
  destruct (decide (P x)) as [HP|HP], (decide (Q x)) as [HQ|HQ].
  - by apply sublist_skip.
  - by destruct HQ; apply HPQ.
  - by apply sublist_cons.
  - done.
Qed.

Section TokenizerExtras.
Context `{PyStr}.
Variables (urls stop_words lowercase alpha_only hashtags lemma : bool).

(** X1. Whatever the flags are, the tokenizer returns the rendering (the
    lemma or the text, lower-cased or not) of a subsequence of the
    document, in the order of the document, so never more strings than
    the document has tokens; and with [stop_words=True] no token of that
    subsequence is a stop word. *)
Theorem twitter_tokenizer_subsequence (doc : Doc) :
  let survivors :=
    filter (λ t, kept urls stop_words lowercase alpha_only hashtags lemma t
                 = true) doc in
  twitter_tokenizer urls stop_words lowercase alpha_only hashtags lemma doc
    = rendered lowercase lemma <$> survivors ∧
  survivors `sublist_of` doc ∧
  (length (twitter_tokenizer urls stop_words lowercase alpha_only hashtags
             lemma doc) ≤ length doc)%nat ∧
  (stop_words = true → Forall (λ t, is_stop t = false) survivors).
Proof.
  intros survivors.
  pose proof (twitter_tokenizer_filter urls stop_words lowercase alpha_only
                hashtags lemma doc) as E.
  split_and!.
  - exact E.
  - apply sublist_filter.
  - rewrite E, length_fmap. apply length_filter.
  - intros ->. apply Forall_forall. intros t [Ht _]%list_elem_of_filter.
    revert Ht. unfold kept. rewrite bool_decide_eq_true. intros [s Hs].
    revert Hs. unfold twitter_tokenizer_body.
    destruct (like_url t), (is_piclink t), (is_stop t), urls; simpl; congruence.
Qed.

(** X2. A url-like token is dropped whatever [urls] is, also with
    [urls=False]; the flag decides about picture links only, which are
    dropped when it is set. *)
Theorem twitter_tokenizer_url_like_dropped (pre post : Doc) (t : Token) :
  like_url t = true ∨ (is_piclink t = true ∧ urls = true) →
  twitter_tokenizer urls stop_words lowercase alpha_only hashtags lemma
    (pre ++ t :: post)
  = twitter_tokenizer urls stop_words lowercase alpha_only hashtags lemma
      (pre ++ post).
Proof.
  intros Ht. rewrite !twitter_tokenizer_app. f_equal.
  rewrite !twitter_tokenizer_omap. simpl.
  unfold twitter_tokenizer_body at 1.
  by destruct Ht as [->|[-> ->]]; [|rewrite orb_true_r].
Qed.

(** X4. Switching off the removal of picture links or of stop words only
    adds tokens: the output with a flag set is a subsequence of the output
    with the flag cleared, the other flags being the same. *)
Theorem twitter_tokenizer_flags_monotone (urls' stop_words' : bool) (doc : Doc) :
  (urls' = true → urls = true) → (stop_words' = true → stop_words = true) →
  twitter_tokenizer urls stop_words lowercase alpha_only hashtags lemma doc
  `sublist_of`
  twitter_tokenizer urls' stop_words' lowercase alpha_only hashtags lemma doc.
Proof.
  intros Hu Hs. rewrite !twitter_tokenizer_filter.
  apply fmap_sublist, sublist_filter_impl. intros t.
  unfold kept. rewrite !bool_decide_eq_true. intros [s Hk]. revert Hk.
  unfold twitter_tokenizer_body.
  destruct (like_url t); simpl; [done|].
  destruct (is_piclink t), urls, urls'; simpl; try done;
    try (by discriminate Hu);
    destruct (is_stop t), stop_words, stop_words'; simpl; try done;
    try (by discriminate Hs);
    destruct (negb _), hashtags, (negb (is_hashtag t)); simpl; eauto.
Qed.

(** X5. Tokens are judged one by one: the tokens of documents laid end
    to end are the tokens of each, laid end to end. *)
Theorem twitter_tokenizer_concat (docs : list Doc) :
  twitter_tokenizer urls stop_words lowercase alpha_only hashtags lemma
    (concat docs)
  = concat (twitter_tokenizer urls stop_words lowercase alpha_only hashtags
              lemma <$> docs).
Proof.
  induction docs as [|d docs IH]; [done|].
  simpl. rewrite twitter_tokenizer_app. f_equal. exact IH.
Qed.
End TokenizerExtras.

Section TokenizerAlpha.
Context `{PyStr}.
Variables (urls stop_words lowercase lemma : bool).

(** X3. With [alpha_only=False] the test [not t.is_alpha & alpha_only]
    holds of every token.  So with [hashtags=True] the tokenizer returns
    the empty list for every document, and with [hashtags=False] only
    hashtags survive: the output is that of the hashtags of the document
    alone, alphabetic words being dropped. *)
Theorem twitter_tokenizer_alpha_only_off (doc : Doc) :
  twitter_tokenizer urls stop_words lowercase false true lemma doc = [] ∧
  twitter_tokenizer urls stop_words lowercase false false lemma doc
  = twitter_tokenizer urls stop_words lowercase false false lemma
      (filter (λ t, is_hashtag t = true) doc).
Proof.
  split.
  - rewrite twitter_tokenizer_omap.
    induction doc as [|t doc IH]; [done|]. simpl.
    change (list_omap _ _ ?f doc) with (omap f doc). rewrite IH.
    unfold twitter_tokenizer_body. rewrite andb_false_r. simpl.
    by repeat case_match.
  - rewrite !twitter_tokenizer_omap. apply omap_filter_None.
    intros t Ht%not_true_is_false.
    unfold twitter_tokenizer_body. rewrite Ht, andb_false_r. simpl.
    by repeat case_match.
Qed.

(** X6. With [alpha_only=True] and [hashtags=True] only alphabetic tokens
    survive: the output is that of the alphabetic tokens of the document
    alone. *)
Theorem twitter_tokenizer_alpha_only_strict (doc : Doc) :
  twitter_tokenizer urls stop_words lowercase true true lemma doc
  = twitter_tokenizer urls stop_words lowercase true true lemma
      (filter (λ t, is_alpha t = true) doc).
Proof.
  rewrite !twitter_tokenizer_omap. apply omap_filter_None.
  intros t Ht%not_true_is_false.
  unfold twitter_tokenizer_body. rewrite Ht. simpl.
  by repeat case_match.
Qed.
End TokenizerAlpha.

(** ** Fitting one period, and a range of them, on any instance *)

Lemma drop_tail {A} (n : nat) (l : list A) : drop n (tail l) = drop (S n) l.
Proof. destruct l; simpl; [by rewrite drop_nil|done]. Qed.

Lemma last_occurrence {A} `{EqDecision A} (x : A) (l : list A) :
  x ∈ l → ∃ i, l !! i = Some x ∧ x ∉ drop (S i) l.
Proof.
  induction l as [|y l IH]; [by intros ?%elem_of_nil|].
  intros Hx. destruct (decide (x ∈ l)) as [Hl|Hl].
  - destruct (IH Hl) as (i & Hi & Hlater). by exists (S i).
  - apply elem_of_cons in Hx as [->|Hx]; [|done]. exists 0%nat.
    by split.
Qed.

Section StoreExtras.
Context `{PyStr} `{Spacy} `{Sklearn}.

(** X7. [calculate_nmf] is all or nothing.  When it returns, it has put
    the fitted TF-IDF model and the NMF model fitted on its output under
    [date], replacing what was there, and changed nothing else: no other
    key, not the count and LDA dictionaries, not the parameters, not the
    console.  When it raises, the exception is scikit-learn's and nothing
    at all has changed. *)
Theorem calculate_nmf_all_or_nothing date data (w : World) :
  match calculate_nmf date data w with
  | (w', inr _) =>
      ∃ tfidf nmf,
        nmf_models (n_components (self w)) (random_state (self w)) data
          = inr (tfidf, nmf) ∧
        tfidf_dict (self w') = <[date:=tfidf]> (tfidf_dict (self w)) ∧
        nmf_dict (self w') = <[date:=nmf]> (nmf_dict (self w)) ∧
        cv_dict (self w') = cv_dict (self w) ∧
        lda_dict (self w') = lda_dict (self w) ∧
        n_components (self w') = n_components (self w) ∧
        random_state (self w') = random_state (self w) ∧
        stdout w' = stdout w
  | (w', inl e) => w' = w ∧ is_LibraryError e
  end.
Proof.
  rewrite calculate_nmf_run.
  destruct (nmf_models _ _ _) as [e|[tfidf nmf]].
  - split; [done|]. by exists e.
  - by exists tfidf, nmf.
Qed.

(** X8. [calculate_lda] is all or nothing in the same way, on the count
    and LDA dictionaries. *)
Theorem calculate_lda_all_or_nothing date data (w : World) :
  match calculate_lda date data w with
  | (w', inr _) =>
      ∃ cv lda,
        lda_models (n_components (self w)) (random_state (self w)) data
          = inr (cv, lda) ∧
        cv_dict (self w') = <[date:=cv]> (cv_dict (self w)) ∧
        lda_dict (self w') = <[date:=lda]> (lda_dict (self w)) ∧
        tfidf_dict (self w') = tfidf_dict (self w) ∧
        nmf_dict (self w') = nmf_dict (self w) ∧
        n_components (self w') = n_components (self w) ∧
        random_state (self w') = random_state (self w) ∧
        stdout w' = stdout w
  | (w', inl e) => w' = w ∧ is_LibraryError e
  end.
Proof.
  rewrite calculate_lda_run.
  destruct (lda_models _ _ _) as [e|[cv lda]].
  - split; [done|]. by exists e.
  - by exists cv, lda.
Qed.

(** X9. However it ends, [fit] changes neither [n_components] nor
    [random_state], and removes no key from any of the four
    dictionaries. *)
Theorem fit_never_removes df (date_range : list Timestamp) (w : World) :
  let s := self w in
  let s' := self (fit df date_range w).1 in
  n_components s' = n_components s ∧ random_state s' = random_state s ∧
  dom (cv_dict s) ⊆ dom (cv_dict s') ∧
  dom (tfidf_dict s) ⊆ dom (tfidf_dict s') ∧
  dom (nmf_dict s) ⊆ dom (nmf_dict s') ∧
  dom (lda_dict s) ⊆ dom (lda_dict s').
Proof.
  intros s s'.
  apply (fit_keeps
    (λ t, n_components t = n_components s ∧ random_state t = random_state s ∧
          dom (cv_dict s) ⊆ dom (cv_dict t) ∧
          dom (tfidf_dict s) ⊆ dom (tfidf_dict t) ∧
          dom (nmf_dict s) ⊆ dom (nmf_dict t) ∧
          dom (lda_dict s) ⊆ dom (lda_dict t))); [..|done].
  - intros key tfidf nmf t (? & ? & ? & ? & ? & ?). simpl.
    rewrite !dom_insert_L. split_and!; try done; by apply union_subseteq_r'.
  - intros key cv lda t (? & ? & ? & ? & ? & ?). simpl.
    rewrite !dom_insert_L. split_and!; try done; by apply union_subseteq_r'.
Qed.

(** The keys that the loop of [fit] does not store under keep what they
    hold. *)
Lemma fit_loop_other_keys df (pairs : list (Timestamp * Timestamp)) :
  ∀ w w' key,
  for_in pairs (λ p _, fit_period df p.1 p.2) tt w = (w', inr tt) →
  key ∉ label <$> pairs.*2 →
  cv_dict (self w') !! key = cv_dict (self w) !! key ∧
  tfidf_dict (self w') !! key = tfidf_dict (self w) !! key ∧
  nmf_dict (self w') !! key = nmf_dict (self w) !! key ∧
  lda_dict (self w') !! key = lda_dict (self w) !! key.
Proof.
  induction pairs as [|[lo hi] pairs IH]; intros w w' key.
  - by intros [= <-].
  - cbn [for_in]. rewrite bind_run. cbn beta. cbn [fst snd].
    destruct (fit_period df lo hi w) as [w1 [e|[]]] eqn:E; [done|].
    apply fit_period_returned in E as (tfidf & nmf & cv & lda & _ & _ & ->).
    intros Hrun [Hne Hnin]%not_elem_of_cons.
    destruct (IH _ _ key Hrun Hnin) as (-> & -> & -> & ->). simpl.
    by rewrite !lookup_insert_ne.
Qed.

(** X10. The last write wins.  When [fit] returns, on whatever instance,
    a key that is the label of no boundary after the first holds what it
    held, and under the label of a boundary stand the four estimators
    fitted on the period that ends there, unless a later boundary has the
    same label. *)
Theorem fit_last_write_wins df (date_range : list Timestamp) (w w' : World) :
  fit df date_range w = (w', inr tt) →
  (∀ key, key ∉ label <$> tail date_range →
     cv_dict (self w') !! key = cv_dict (self w) !! key ∧
     tfidf_dict (self w') !! key = tfidf_dict (self w) !! key ∧
     nmf_dict (self w') !! key = nmf_dict (self w) !! key ∧
     lda_dict (self w') !! key = lda_dict (self w) !! key) ∧
  (∀ i lo hi, date_range !! i = Some lo → date_range !! S i = Some hi →
     label hi ∉ label <$> drop (S (S i)) date_range →
     fitted_on (self w') (label hi) (period_docs df lo hi)).
Proof.
  intros (w0 & Hloop & ->)%fit_returned. split.
  - intros key Hkey. apply (fit_loop_other_keys df _ w w0 key Hloop).
    by rewrite adjacent_snd.
  - intros i lo hi Hlo Hhi Hlater.
    apply fit_loop_ok in Hloop as (_ & _ & _ & _ & _ & _ & _ & _ & Hidx).
    apply (Hidx i lo hi); [by apply adjacent_lookup|].
    by rewrite fmap_drop, adjacent_snd, drop_tail.
Qed.

(** X11. The two pipelines of a period are not written together.  When
    the loop of [fit] reaches a period whose second boundary is
    [in_bounds], on which the TF-IDF and NMF estimators fit and the
    count or LDA estimator does not, [fit] raises the library's exception
    with the first two stored under the label of the period, and the
    count and LDA dictionaries as the earlier periods left them. *)
Theorem fit_lda_failure_keeps_nmf df (pre : list Timestamp) lo hi post
    (w w1 : World) tfidf nmf e :
  in_bounds hi →
  fit df (pre ++ [lo]) w = (w1, inr tt) →
  nmf_models (n_components (self w1)) (random_state (self w1))
    (period_docs df lo hi) = inr (tfidf, nmf) →
  lda_models (n_components (self w1)) (random_state (self w1))
    (period_docs df lo hi) = inl e →
  ∃ w2, fit df (pre ++ lo :: hi :: post) w = (w2, inl (LibraryError e)) ∧
        self w2 = store_nmf (label hi) tfidf nmf (self w1).
Proof.
  intros Hin (w0 & Hloop & ->)%fit_returned Hn Hl. cbn [self] in *.
  eexists. rewrite fit_adjacent, bind_run, adjacent_app, for_in_app, Hloop.
  change (adjacent (lo :: hi :: post)) with ((lo, hi) :: adjacent (hi :: post)).
  cbn [for_in]. rewrite bind_run. cbn beta. cbn [fst snd].
  rewrite fit_period_run by done. cbn zeta. rewrite Hn, Hl. done.
Qed.
End StoreExtras.

(** ** What a drift evaluation that returned has computed *)

Section DriftExtras.
Context `{PyStr} `{Spacy} `{Sklearn}.

(** X12. Whenever [calc_rec_error] returns, each of its two lists has one
    entry per pair of neighbouring boundaries, and the entries of pair
    [i] are the stored reconstruction error of the model under the second
    label and the Frobenius residual of the pair's data under the models
    of the first label: the three models were stored and the library's
    calls succeeded.  The instance is the one before the call, and the
    console has one line per pair, in order, and the closing line. *)
Theorem calc_rec_error_sound df (date_range : list Timestamp) (w w' : World)
    model_err new_err :
  calc_rec_error df date_range w = (w', inr (model_err, new_err)) →
  length model_err = (length date_range - 1)%nat ∧
  length new_err = (length date_range - 1)%nat ∧
  (∀ i lo hi, date_range !! i = Some lo → date_range !! S i = Some hi →
     ∃ own carried,
       model_err !! i = Some own ∧ new_err !! i = Some carried ∧
       pair_errors (self w) df lo hi own carried) ∧
  self w' = self w ∧
  stdout w' = stdout w ++ (working_on ∘ label <$> tail date_range) ++ [finished].
Proof.
  rewrite calc_rec_error_adjacent, bind_run.
  destruct (for_in _ _ _ w) as [w0 [e|r]] eqn:E; [done|].
  apply rec_error_loop_returned in E as (owns & carrieds & -> & H3 & Hs & Hout).
  intros [= <- <- <-]. rewrite adjacent_snd in Hout. split_and!.
  - by rewrite <- (Forall3_length_lm _ _ _ _ H3), adjacent_length.
  - by rewrite <- (Forall3_length_lr _ _ _ _ H3), adjacent_length.
  - intros i lo hi Hlo Hhi.
    assert (Hi : adjacent date_range !! i = Some (lo, hi))
      by by apply adjacent_lookup.
    destruct (Forall3_lookup_l _ _ _ _ _ _ H3 Hi)
      as (own & carried & Ho & Hc & Hp).
    by exists own, carried.
  - done.
  - cbn [stdout]. by rewrite Hout, <- app_assoc.
Qed.

(** X13. When the loop of [calc_rec_error] reaches a pair whose first
    label has its models, whose second boundary is [in_bounds], and the
    library's calls succeed on the pair, but no NMF model is stored under
    the second label, the call raises the [KeyError] of the second label,
    the instance unchanged. *)
Theorem calc_rec_error_missing_current df (pre : list Timestamp) lo hi post
    (w w1 : World) errs tfidf nmf tfidf_vecs W carried :
  in_bounds hi →
  calc_rec_error df (pre ++ [lo]) w = (w1, inr errs) →
  tfidf_dict (self w) !! label lo = Some tfidf →
  nmf_dict (self w) !! label lo = Some nmf →
  tfidf_transform tfidf (period_docs df lo hi) = inr tfidf_vecs →
  nmf_transform nmf tfidf_vecs = inr W →
  _beta_divergence tfidf_vecs W (components_ nmf) frobenius true
    = inr carried →
  nmf_dict (self w) !! label hi = None →
  ∃ w2, calc_rec_error df (pre ++ lo :: hi :: post) w
          = (w2, inl (KeyError (label hi))) ∧
        self w2 = self w.
Proof.
  intros Hin (w0 & Hloop & Hs)%calc_rec_error_returned Ht Hp Hv HW Hd Hc.
  eexists. rewrite calc_rec_error_adjacent, bind_run, adjacent_app.
  rewrite for_in_app, Hloop.
  change (adjacent (lo :: hi :: post)) with ((lo, hi) :: adjacent (hi :: post)).
  cbn [for_in]. rewrite bind_run. cbn beta. cbn [fst snd].
  rewrite (rec_error_period_missing_current df lo hi errs w0
             tfidf nmf tfidf_vecs W carried) by by rewrite ?Hs.
  split; [done|]. by simpl.
Qed.
End DriftExtras.

(** ** Fitting, then evaluating or fitting again *)

Section ComposeExtras.
Context `{PyStr} `{Spacy} `{Sklearn}.

(** After the loop of [fit] every label it went through has its TF-IDF
    and NMF models. *)
Lemma fit_loop_stored df (pairs : list (Timestamp * Timestamp)) (w w' : World) b :
  for_in pairs (λ p _, fit_period df p.1 p.2) tt w = (w', inr tt) →
  b ∈ pairs.*2 →
  is_Some (tfidf_dict (self w') !! label b) ∧
  is_Some (nmf_dict (self w') !! label b).
Proof.
  intros Hloop Hb.
  apply fit_loop_ok in Hloop as (_ & _ & _ & _ & Htf & Hnmf & _).
  assert (Hin : label b ∈ (list_to_set (label <$> pairs.*2) : gset string)).
  { apply elem_of_list_to_set, list_elem_of_fmap. by exists b. }
  split; apply elem_of_dom; [rewrite Htf|rewrite Hnmf];
    by apply elem_of_union_r.
Qed.

(** A loop of [fit] returns only over boundaries that are [in_bounds]. *)
Lemma fit_loop_in_bounds df (pairs : list (Timestamp * Timestamp)) :
  ∀ (w w' : World),
  for_in pairs (λ p _, fit_period df p.1 p.2) tt w = (w', inr tt) →
  Forall in_bounds pairs.*2.
Proof.
  induction pairs as [|[lo hi] pairs IH]; intros w w'; [by constructor|].
  cbn [for_in]. rewrite bind_run. cbn beta. cbn [fst snd].
  destruct (fit_period df lo hi w) as [w1 [e|[]]] eqn:E; [done|].
  apply fit_period_returned_in_bounds in E.
  intros Hrest%IH. by constructor.
Qed.

(** X14. Evaluating over the boundaries that were just fitted fails at
    the first pair: [fit] stores nothing under the label of the first
    boundary, so unless that label was stored before or is the label of a
    later boundary, [calc_rec_error] raises its [KeyError]. *)
Theorem fit_then_calc_rec_error_same_range df lo hi post (w w1 : World) :
  fit df (lo :: hi :: post) w = (w1, inr tt) →
  tfidf_dict (self w) !! label lo = None →
  label lo ∉ label <$> hi :: post →
  ∃ w2, calc_rec_error df (lo :: hi :: post) w1
          = (w2, inl (KeyError (label lo))) ∧
        self w2 = self w1.
Proof.
  intros (w0 & Hloop & ->)%fit_returned Hnone Hfresh.
  assert (Hmiss : tfidf_dict (self w0) !! label lo = None).
  { destruct (fit_loop_other_keys df _ w w0 (label lo) Hloop) as (_ & -> & _).
    - by rewrite adjacent_snd.
    - done. }
  assert (Hin : in_bounds hi).
  { apply fit_loop_in_bounds in Hloop. by apply Forall_cons in Hloop as [? _]. }
  eexists. rewrite calc_rec_error_adjacent, bind_run.
  change (adjacent (lo :: hi :: post)) with ((lo, hi) :: adjacent (hi :: post)).
  cbn [for_in]. rewrite bind_run. cbn beta. cbn [fst snd].
  by rewrite rec_error_period_missing.
Qed.

(** X15. Evaluating over the boundaries after the first finds every model
    it asks for.  When [fit] has returned, on whatever instance, and the
    library's transforms and divergence succeed on each pair with the
    models stored under its first label, [calc_rec_error] over the tail
    of the boundaries returns two lists of one entry per pair, the first
    holding the reconstruction errors of the NMF models that are stored
    under the second labels. *)
Theorem fit_then_calc_rec_error_tail df (date_range : list Timestamp)
    (w w1 : World) :
  fit df date_range w = (w1, inr tt) →
  (∀ i lo hi tfidf nmf,
     tail date_range !! i = Some lo → tail date_range !! S i = Some hi →
     tfidf_dict (self w1) !! label lo = Some tfidf →
     nmf_dict (self w1) !! label lo = Some nmf →
     ∃ tfidf_vecs W carried,
       tfidf_transform tfidf (period_docs df lo hi) = inr tfidf_vecs ∧
       nmf_transform nmf tfidf_vecs = inr W ∧
       _beta_divergence tfidf_vecs W (components_ nmf) frobenius true
         = inr carried) →
  ∃ model_err new_err w2,
    calc_rec_error df (tail date_range) w1 = (w2, inr (model_err, new_err)) ∧
    length model_err = (length date_range - 2)%nat ∧
    length new_err = (length date_range - 2)%nat ∧
    ∀ i hi, tail date_range !! S i = Some hi →
      ∃ nmf, nmf_dict (self w1) !! label hi = Some nmf ∧
             model_err !! i = Some (reconstruction_err_ nmf).
Proof.
  intros (w0 & Hloop & ->)%fit_returned Hlib. cbn [self] in *.
  assert (Hstored : ∀ b, b ∈ tail date_range →
            is_Some (tfidf_dict (self w0) !! label b) ∧
            is_Some (nmf_dict (self w0) !! label b)).
  { intros b Hb. apply (fit_loop_stored df _ w w0 b Hloop).
    by rewrite adjacent_snd. }
  assert (Hbounds : Forall in_bounds (tail date_range)).
  { rewrite <- adjacent_snd. by eapply fit_loop_in_bounds. }
  assert (Hall : Forall (λ p, ∃ own carried,
                    pair_errors (self w0) df p.1 p.2 own carried)
                   (adjacent (tail date_range))).
  { apply Forall_lookup. intros i [lo hi] [Hlo Hhi]%adjacent_lookup.
    destruct (Hstored lo) as [[tfidf Ht] [nmf Hn]];
      [by eapply list_elem_of_lookup_2|].
    destruct (Hstored hi) as [_ [nmf_cur Hc]];
      [by eapply list_elem_of_lookup_2|].
    destruct (Hlib i lo hi tfidf nmf Hlo Hhi Ht Hn)
      as (vecs & W & carried & Hv & HW & Hd).
    exists (reconstruction_err_ nmf_cur), carried. simpl. split.
    { eapply Forall_forall; [exact Hbounds|].
      by eapply list_elem_of_lookup_2. }
    by exists tfidf, nmf, nmf_cur, vecs, W. }
  destruct (rec_error_loop_ok df (self w0) _ Hall [] []
              (mkWorld (self w0) (stdout w0 ++ [finished])) eq_refl)
    as (owns & carrieds & w' & Hrun & Hs & H3).
  exists owns, carrieds, (mkWorld (self w') (stdout w' ++ [finished])).
  assert (Hlen : length (adjacent (tail date_range))
                 = (length date_range - 2)%nat).
  { rewrite adjacent_length. destruct date_range; simpl; lia. }
  split_and!.
  - by rewrite calc_rec_error_adjacent, bind_run, Hrun.
  - by rewrite <- (Forall3_length_lm _ _ _ _ H3).
  - by rewrite <- (Forall3_length_lr _ _ _ _ H3).
  - intros i hi Hhi.
    destruct (lookup_lt_is_Some_2 (tail date_range) i) as [lo Hlo].
    { apply lookup_lt_Some in Hhi. lia. }
    assert (Hi : adjacent (tail date_range) !! i = Some (lo, hi))
      by by apply adjacent_lookup.
    destruct (Forall3_lookup_l _ _ _ _ _ _ H3 Hi)
      as (own & carried & Ho & _ & Hp).
    destruct Hp as (_ & _ & _ & nmf_cur & _ & _ & _ & _ & Hc & _ & _ & _ & ->).
    by exists nmf_cur.
Qed.

(** The periods of a loop of [fit] that returned all fit, with the
    parameters of the instance. *)
Lemma fit_loop_models df (pairs : list (Timestamp * Timestamp)) :
  ∀ (w w' : World),
  for_in pairs (λ p _, fit_period df p.1 p.2) tt w = (w', inr tt) →
  Forall (λ p, in_bounds p.2 ∧ ∃ tfidf nmf cv lda,
            nmf_models (n_components (self w)) (random_state (self w))
              (period_docs df p.1 p.2) = inr (tfidf, nmf) ∧
            lda_models (n_components (self w)) (random_state (self w))
              (period_docs df p.1 p.2) = inr (cv, lda)) pairs.
Proof.
  induction pairs as [|[lo hi] pairs IH]; intros w w'; [by constructor|].
  cbn [for_in]. rewrite bind_run. cbn beta. cbn [fst snd].
  destruct (fit_period df lo hi w) as [w1 [e|[]]] eqn:E; [done|].
  pose proof (fit_period_returned_in_bounds _ _ _ _ _ E) as Hin.
  apply fit_period_returned in E as (tfidf & nmf & cv & lda & Hn & Hl & ->).
  intros Hrest%IH.
  constructor; [split; [done|by exists tfidf, nmf, cv, lda]|done].
Qed.

(** A loop of [fit] whose periods all fit returns. *)
Lemma fit_loop_returns df (pairs : list (Timestamp * Timestamp)) n r :
  Forall (λ p, in_bounds p.2 ∧ ∃ tfidf nmf cv lda,
            nmf_models n r (period_docs df p.1 p.2) = inr (tfidf, nmf) ∧
            lda_models n r (period_docs df p.1 p.2) = inr (cv, lda)) pairs →
  ∀ (w : World), n_components (self w) = n → random_state (self w) = r →
  ∃ w', for_in pairs (λ p _, fit_period df p.1 p.2) tt w = (w', inr tt).
Proof.
  induction 1
    as [|[lo hi] pairs (Hin & tfidf & nmf & cv & lda & Hn & Hl) _ IH];
    intros w <- <-; [by eexists|].
  cbn [for_in]. rewrite bind_run. cbn beta. cbn [fst snd].
  rewrite fit_period_run by done. cbn zeta. simpl in Hn, Hl. rewrite Hn, Hl.
  by apply IH.
Qed.

(** X16. Fitting again changes nothing.  When [fit] has returned, a second
    [fit] on the same corpus and boundaries returns too, and leaves the
    instance exactly as the first one left it. *)
Theorem fit_twice df (date_range : list Timestamp) (w w1 : World) :
  fit df date_range w = (w1, inr tt) →
  ∃ w2, fit df date_range w1 = (w2, inr tt) ∧ self w2 = self w1.
Proof.
  intros (w0 & Hloop & ->)%fit_returned.
  pose proof (fit_loop_ok df _ w w0 Hloop) as (Hn & Hr & _).
  pose proof (fit_loop_models df _ w w0 Hloop) as Hmodels.
  rewrite <- Hn, <- Hr in Hmodels.
  destruct (fit_loop_returns df _ _ _ Hmodels
              (mkWorld (self w0) (stdout w0 ++ [finished])) eq_refl eq_refl)
    as [w2 Hloop2].
  exists (mkWorld (self w2) (stdout w2 ++ [finished])). split.
  { by rewrite fit_adjacent, bind_run, Hloop2. }
  cbn [self].
  pose proof (fit_loop_ok df _ _ w2 Hloop2)
    as (Hn2 & Hr2 & _ & _ & _ & _ & _ & _ & Hidx2).
  pose proof (fit_loop_ok df _ w w0 Hloop)
    as (_ & _ & _ & _ & _ & _ & _ & _ & Hidx1).
  cbn [self] in *.
  assert (Hkeys : ∀ key,
            cv_dict (self w2) !! key = cv_dict (self w0) !! key ∧
            tfidf_dict (self w2) !! key = tfidf_dict (self w0) !! key ∧
            nmf_dict (self w2) !! key = nmf_dict (self w0) !! key ∧
            lda_dict (self w2) !! key = lda_dict (self w0) !! key).
  { intros key.
    destruct (decide (key ∈ label <$> (adjacent date_range).*2)) as [Hin|Hout].
    - apply last_occurrence in Hin as (i & Hi & Hlater).
      rewrite list_lookup_fmap, list_lookup_fmap in Hi.
      destruct (adjacent date_range !! i) as [[lo hi]|] eqn:Hp; [|done].
      simpl in Hi. injection Hi as <-.
      rewrite <- !fmap_drop in Hlater.
      destruct (Hidx1 i lo hi Hp Hlater)
        as (tfidf & nmf & cv & lda & Hm & Hl & -> & -> & -> & ->).
      destruct (Hidx2 i lo hi Hp Hlater)
        as (tfidf' & nmf' & cv' & lda' & Hm' & Hl' & -> & -> & -> & ->).
      rewrite Hn2, Hr2, Hm in Hm'. rewrite Hn2, Hr2, Hl in Hl'.
      by simplify_eq.
    - by apply (fit_loop_other_keys df _ _ w2 key Hloop2). }
  destruct (self w2) as [n2 r2 cv2 tf2 nmf2 lda2],
           (self w0) as [n0 r0 cv0 tf0 nmf0 lda0].
  simpl in *. subst. f_equal; apply map_eq; intros key; by apply Hkeys.
Qed.
End ComposeExtras.

(** ** Displaying the topics of a model *)

Section DisplayFacts.
Context `{Sklearn} `{!Numpy} {Model : Type} `{!TopicModel Model}.

(** The comprehension [[word_features[i] for i in top_words_idx]]. *)
Lemma top_words_loop (word_features : list string) (idxs : list nat) :
  ∀ (top_words : list string) (w : World),
  for_in idxs (λ i top_words,
                 word ← index word_features i; mret (top_words ++ [word]))
    top_words w
  = if decide (Forall (λ i, (i < length word_features)%nat) idxs)
    then (w, inr (top_words ++ topic_words word_features idxs))
    else (w, inl IndexError).
Proof.
  induction idxs as [|i idxs IH]; intros top_words w.
  - rewrite decide_True by constructor. simpl. by rewrite app_nil_r.
  - cbn [for_in]. rewrite bind_run. unfold index at 1. rewrite bind_run.
    destruct (word_features !! i) as [word|] eqn:Hi.
    + apply lookup_lt_Some in Hi as Hlt. simpl. rewrite IH.
      destruct (decide (Forall _ idxs)) as [Hall|Hall].
      * rewrite decide_True by by constructor.
        unfold topic_words. simpl. rewrite Hi. by rewrite <- app_assoc.
      * rewrite decide_False; [done|]. by intros [_ ?]%Forall_cons.
    + apply lookup_ge_None in Hi. simpl.
      rewrite decide_False; [done|]. intros [? _]%Forall_cons. lia.
Qed.

(** One turn of the loop of [display_components]. *)
Lemma display_components_body_run word_features top_display i topic u
    (w : World) :
  display_components_body word_features top_display (i, topic) u w
  = if decide (Forall (λ j, (j < length word_features)%nat)
                 (top_indices top_display topic))
    then (mkWorld (self w)
            (stdout w ++ topic_lines word_features top_display i topic),
          inr tt)
    else (mkWorld (self w) (stdout w ++ [topic_header i]), inl IndexError).
Proof.
  unfold display_components_body. rewrite bind_run. cbn [print].
  rewrite bind_run, top_words_loop.
  destruct (decide _); [|done].
  unfold print, topic_lines. cbn [self stdout].
  by rewrite <- app_assoc.
Qed.

(** The loop of [display_components] from topic [k] on, the words of
    every topic being in range. *)
Lemma display_components_loop word_features top_display
    (rows : list (list float)) :
  ∀ (k : nat) (w : World),
  Forall (λ topic, Forall (λ j, (j < length word_features)%nat)
                     (top_indices top_display topic)) rows →
  for_in (zip (seq k (length rows)) rows)
    (display_components_body word_features top_display) tt w
  = (mkWorld (self w)
       (stdout w ++
        concat (imap (λ i, topic_lines word_features top_display (k + i))
                  rows)),
     inr tt).
Proof.
  induction rows as [|topic rows IH]; intros k w Hrows.
  - simpl. rewrite app_nil_r. by destruct w.
  - apply Forall_cons in Hrows as [Htopic Hrows].
    cbn [length seq zip zip_with for_in]. rewrite bind_run.
    rewrite display_components_body_run, decide_True by done.
    rewrite (IH (S k)) by done. cbn [self stdout].
    rewrite imap_cons, Nat.add_0_r. cbn [concat].
    rewrite <- !app_assoc. do 3 f_equal. simpl. do 3 f_equal.
    apply imap_ext. intros j topic' _. simpl. f_equal. lia.
Qed.

(** With a permutation for [argsort], the indices chosen for a row are
    indices of the row. *)
Lemma top_indices_in_range top_display (topic : list float) :
  argsort_permutes topic →
  Forall (λ j, (j < length topic)%nat) (top_indices top_display topic).
Proof.
  intros Hperm. apply Forall_forall. intros j Hj.
  assert (Hin : j ∈ reverse (argsort topic)).
  { unfold top_indices, slice_to in Hj.
    destruct (0 <=? top_display);
      apply elem_of_take in Hj as (p & Hp & _);
      by eapply list_elem_of_lookup_2. }
  rewrite reverse_Permutation, Hperm in Hin.
  apply elem_of_seq in Hin. lia.
Qed.

(** X17. When [argsort] gives each row a permutation of its indices and
    [word_features] has a word for every column, [display_components]
    returns, whatever [top_display] is: it has printed, for each row of
    [components_] in order, the line [Topic i:] and the line of the words
    at the chosen indices, none missing, and has not touched the
    instance. *)
Theorem display_components_prints (model : Model)
    (word_features : list string) (top_display : Z) (w : World) :
  (∀ topic, topic ∈ tolist (model_components model) →
     argsort_permutes topic ∧ (length topic ≤ length word_features)%nat) →
  display_components model word_features top_display w
  = (mkWorld (self w)
       (stdout w ++
        concat (imap (topic_lines word_features top_display)
                  (tolist (model_components model)))),
     inr tt) ∧
  ∀ topic, topic ∈ tolist (model_components model) →
    Forall2 (λ j word, word_features !! j = Some word)
      (top_indices top_display topic)
      (topic_words word_features (top_indices top_display topic)).
Proof.
  intros Hrows.
  assert (Hrange : ∀ topic, topic ∈ tolist (model_components model) →
            Forall (λ j, (j < length word_features)%nat)
              (top_indices top_display topic)).
  { intros topic [Hperm Hlen]%Hrows.
    eapply Forall_impl; [by apply top_indices_in_range|]. simpl. lia. }
  split.
  - unfold display_components, enumerate.
    rewrite display_components_loop by by apply Forall_forall.
    do 3 f_equal.
  - intros topic Htopic%Hrange. unfold topic_words.
    induction Htopic as [|j idxs Hj _ IH]; [constructor|].
    apply lookup_lt_is_Some_2 in Hj as [word Hword].
    simpl. rewrite Hword. by constructor.
Qed.

(** X18. With [top_display=0] no word is looked up: whatever the model
    and [word_features] are, [display_components] returns, having printed
    [Topic i:] and an empty line for each row. *)
Theorem display_components_top_0 (model : Model) (word_features : list string)
    (w : World) :
  display_components model word_features 0 w
  = (mkWorld (self w)
       (stdout w ++
        concat (imap (λ i _, [topic_header i; LF])
                  (tolist (model_components model)))),
     inr tt).
Proof.
  unfold display_components, enumerate.
  rewrite display_components_loop.
  - do 3 f_equal.
  - apply Forall_forall. intros topic _. unfold top_indices, slice_to. simpl.
    rewrite take_0. constructor.
Qed.

(** X19. When the rows before some row have their words and that row has
    a chosen index that [word_features] lacks, [display_components]
    raises [IndexError]: the lines of the rows before are printed, and
    of that row the line [Topic i:] alone. *)
Theorem display_components_index_error (model : Model)
    (word_features : list string) (top_display : Z)
    (before : list (list float)) topic after (w : World) :
  tolist (model_components model) = before ++ topic :: after →
  Forall (λ topic, Forall (λ j, (j < length word_features)%nat)
                     (top_indices top_display topic)) before →
  Exists (λ j, (length word_features ≤ j)%nat)
    (top_indices top_display topic) →
  display_components model word_features top_display w
  = (mkWorld (self w)
       (stdout w ++
        concat (imap (topic_lines word_features top_display) before) ++
        [topic_header (length before)]),
     inl IndexError).
Proof.
  intros Hrows Hbefore Hbad.
  unfold display_components, enumerate. rewrite Hrows.
  rewrite length_app, seq_app, zip_with_app by by rewrite length_seq.
  rewrite for_in_app, display_components_loop by done.
  cbn [length seq zip zip_with for_in]. rewrite bind_run.
  rewrite display_components_body_run, decide_False.
  - cbn [self stdout]. by rewrite <- app_assoc.
  - intros Hall. apply Exists_exists in Hbad as (j & Hj & Hge).
    rewrite Forall_forall in Hall. specialize (Hall j Hj). simpl in Hall. lia.
Qed.
End DisplayFacts.

(** ** The indices chosen for a topic *)

Section TopIndices.
Context `{Sklearn} `{!Numpy}.

(** Read from its end, an ascending [argsort] descends. *)
Lemma argsort_reverse_descending (topic : list float) p q a b x y :
  argsort_ascending topic → (p ≤ q)%nat →
  reverse (argsort topic) !! p = Some a →
  reverse (argsort topic) !! q = Some b →
  topic !! a = Some x → topic !! b = Some y → float_le y x.
Proof.
  intros Hasc Hpq [Ha Hp]%reverse_lookup_Some [Hb Hq]%reverse_lookup_Some Hx Hy.
  apply (Hasc _ _ b a y x) with (3 := Ha) (2 := Hb); [lia|done..].
Qed.

(** X20. What [topic.argsort()[::-1][:k]] selects, for [k] not negative
    and an [argsort] that gives a permutation of the indices of the row in
    ascending order of the entries: [k] indices of the row, or all of
    them when the row is shorter, without repetition, from the largest
    entry down; and no entry that is left out exceeds one that is
    chosen. *)
Theorem top_indices_largest (k : nat) (topic : list float) :
  argsort_permutes topic → argsort_ascending topic →
  let idxs := top_indices (Z.of_nat k) topic in
  NoDup idxs ∧
  length idxs = min k (length topic) ∧
  Forall (λ j, (j < length topic)%nat) idxs ∧
  (∀ p q a b x y, (p ≤ q)%nat → idxs !! p = Some a → idxs !! q = Some b →
     topic !! a = Some x → topic !! b = Some y → float_le y x) ∧
  (∀ a b x y, a ∈ idxs → b ∉ idxs →
     topic !! a = Some x → topic !! b = Some y → float_le y x).
Proof.
  intros Hperm Hasc idxs.
  assert (Hidxs : idxs = take k (reverse (argsort topic))).
  { unfold idxs, top_indices, slice_to.
    rewrite (proj2 (Z.leb_le 0 (Z.of_nat k))) by lia. by rewrite Nat2Z.id. }
  assert (Hlen : length (argsort topic) = length topic).
  { unfold argsort_permutes in Hperm. by rewrite Hperm, length_seq. }
  split_and!.
  - rewrite Hidxs. eapply sublist_NoDup; [|apply sublist_take].
    rewrite reverse_Permutation. unfold argsort_permutes in Hperm.
    rewrite Hperm. apply NoDup_seq.
  - by rewrite Hidxs, length_take, length_reverse, Hlen.
  - by apply top_indices_in_range.
  - rewrite Hidxs. intros p q a b x y Hpq [Ha _]%lookup_take_Some
      [Hb _]%lookup_take_Some.
    by apply (argsort_reverse_descending topic p q a b x y).
  - rewrite Hidxs. intros a b x y (p & Ha & Hp)%elem_of_take Hb Hx Hy.
    assert (Hin : b ∈ reverse (argsort topic)).
    { rewrite reverse_Permutation. unfold argsort_permutes in Hperm.
      rewrite Hperm. apply elem_of_seq. apply lookup_lt_Some in Hy. lia. }
    apply list_elem_of_lookup in Hin as [q Hq].
    destruct (decide (q < k)%nat) as [Hlt|Hge].
    { destruct Hb. apply elem_of_take. by exists q. }
    apply (argsort_reverse_descending topic p q a b x y); [done|lia|done..].
Qed.
End TopIndices.

(** ** The fixture of numpy keeps the promises of [argsort] *)

Section FixtureFacts.
Import Fixture.
#[local] Existing Instance sklearn.
#[local] Existing Instance numpy.

#[local] Instance by_weight_transitive : Transitive by_weight.
Proof. intros p q r. unfold by_weight. lia. Qed.

#[local] Instance by_weight_total : Total by_weight.
Proof. intros p q. unfold by_weight. lia. Qed.

Lemma sort_indices_permutes (topic : list Z) : argsort_permutes topic.
Proof.
  unfold argsort_permutes. simpl. unfold sort_indices.
  rewrite merge_sort_Permutation. by rewrite snd_zip by by rewrite length_seq.
Qed.

Lemma sort_indices_ascending (topic : list Z) : argsort_ascending topic.
Proof.
  intros i j a b x y Hij Ha Hb Hx Hy. simpl in *. unfold sort_indices in *.
  set (L := merge_sort by_weight (zip topic (seq 0 (length topic)))) in *.
  assert (Hsorted : StronglySorted by_weight L)
    by (apply StronglySorted_merge_sort; apply _).
  assert (Hzip : ∀ v c, (v, c) ∈ L → topic !! c = Some v).
  { intros v c Hin. unfold L in Hin. rewrite merge_sort_Permutation in Hin.
    apply list_elem_of_lookup in Hin as [m Hm].
    apply lookup_zip_Some in Hm as [Hv [-> _]%lookup_seq]. done. }
  apply list_lookup_fmap_Some in Ha as ([x' a'] & -> & Ha).
  apply list_lookup_fmap_Some in Hb as ([y' b'] & -> & Hb).
  simpl in *.
  pose proof (Hzip _ _ (list_elem_of_lookup_2 _ _ _ Ha)) as Hx'.
  pose proof (Hzip _ _ (list_elem_of_lookup_2 _ _ _ Hb)) as Hy'.
  assert (x' = x) as -> by congruence.
  assert (y' = y) as -> by congruence.
  destruct (decide (i = j)) as [->|Hne].
  { assert (x = y) as -> by congruence. unfold float_le. simpl. lia. }
  rewrite <- (take_drop_middle L i (x, a') Ha) in Hsorted.
  apply StronglySorted_app_1_r, StronglySorted_cons in Hsorted as [Hall _].
  rewrite Forall_forall in Hall.
  apply (Hall (y, b')). apply list_elem_of_lookup. exists (j - S i)%nat.
  rewrite lookup_drop. rewrite <- Hb. f_equal. lia.
Qed.
End FixtureFacts.

(** ** The further properties at the fixtures *)

Section MoreExamples.
Import Fixture.
#[local] Existing Instance ascii_str.
#[local] Existing Instance spacy.
#[local] Existing Instance sklearn.
#[local] Existing Instance numpy.

(** The link of [a slow day http://t.co/x] goes, also with [urls=False]. *)
Lemma twitter_tokenizer_url_like_dropped_witness :
  twitter_tokenizer false true true true false false
    (annotate <$> ["a"; "slow"; "day"; "http://t.co/x"])
  = twitter_tokenizer false true true true false false
      (annotate <$> ["a"; "slow"; "day"]).
Proof.
  exact (twitter_tokenizer_url_like_dropped false true true true false false
           (annotate <$> ["a"; "slow"; "day"]) [] (annotate "http://t.co/x")
           (or_introl eq_refl)).
Defined.

(** Keeping the stop words of [the rally is #on] only adds to the output. *)
Lemma twitter_tokenizer_flags_monotone_witness :
  twitter_tokenizer true true true true false false
    (annotate <$> ["the"; "rally"; "is"; "#on"])
  `sublist_of`
  twitter_tokenizer false false true true false false
    (annotate <$> ["the"; "rally"; "is"; "#on"]).
Proof.
  exact (twitter_tokenizer_flags_monotone true true true true false false
           false false (annotate <$> ["the"; "rally"; "is"; "#on"])
           (λ _, eq_refl) (λ _, eq_refl)).
Defined.

(** Three boundaries within one day: the label holds the second interval. *)
Lemma fit_last_write_wins_witness :
  (∀ key, key ∉ label <$> tail same_day →
     cv_dict (self (fit corpus same_day start).1) !! key
       = cv_dict (self start) !! key ∧
     tfidf_dict (self (fit corpus same_day start).1) !! key
       = tfidf_dict (self start) !! key ∧
     nmf_dict (self (fit corpus same_day start).1) !! key
       = nmf_dict (self start) !! key ∧
     lda_dict (self (fit corpus same_day start).1) !! key
       = lda_dict (self start) !! key) ∧
  (∀ i lo hi, same_day !! i = Some lo → same_day !! S i = Some hi →
     label hi ∉ label <$> drop (S (S i)) same_day →
     fitted_on (self (fit corpus same_day start).1) (label hi)
       (period_docs corpus lo hi)).
Proof.
  apply (fit_last_write_wins corpus same_day start (fit corpus same_day start).1).
  by vm_compute.
Defined.

(** After [fit(corpus, daily)], the drift over the later boundaries. *)
Lemma calc_rec_error_sound_witness :
  length [0; 0] = (length (tail daily) - 1)%nat ∧
  length [5; 4] = (length (tail daily) - 1)%nat ∧
  (∀ i lo hi, tail daily !! i = Some lo → tail daily !! S i = Some hi →
     ∃ own carried,
       [0; 0] !! i = Some own ∧ [5; 4] !! i = Some carried ∧
       pair_errors (self fitted) corpus lo hi own carried) ∧
  self (calc_rec_error corpus (tail daily) fitted).1 = self fitted ∧
  stdout (calc_rec_error corpus (tail daily) fitted).1
    = stdout fitted ++ (working_on ∘ label <$> tail (tail daily)) ++ [finished].
Proof.
  apply (calc_rec_error_sound corpus (tail daily) fitted
           (calc_rec_error corpus (tail daily) fitted).1 [0; 0] [5; 4]).
  by vm_compute.
Defined.

(** The first day alone is fitted: the second day has no model of its
    own when the drift from the first to the second is asked for. *)
Lemma calc_rec_error_missing_current_witness :
  ∃ w2, calc_rec_error corpus ([] ++ day0 + days 1 :: day0 + days 2 :: [])
          fitted_first = (w2, inl (KeyError (label (day0 + days 2)))) ∧
        self w2 = self fitted_first.
Proof.
  eapply (calc_rec_error_missing_current corpus [] (day0 + days 1)
            (day0 + days 2) [] fitted_first);
    by vm_compute.
Defined.

(** Fitting the daily boundaries and evaluating over them. *)
Lemma fit_then_calc_rec_error_same_range_witness :
  ∃ w2, calc_rec_error corpus
          (day0 :: day0 + days 1 :: [day0 + days 2; day0 + days 3]) fitted
          = (w2, inl (KeyError (label day0))) ∧
        self w2 = self fitted.
Proof.
  apply (fit_then_calc_rec_error_same_range corpus day0 (day0 + days 1)
           [day0 + days 2; day0 + days 3] start fitted).
  - by vm_compute.
  - by vm_compute.
  - apply (bool_decide_unpack _). by vm_compute.
Defined.

(** Fitting the daily boundaries and evaluating over those after the
    first. *)
Lemma fit_then_calc_rec_error_tail_witness :
  ∃ model_err new_err w2,
    calc_rec_error corpus (tail daily) fitted = (w2, inr (model_err, new_err)) ∧
    length model_err = (length daily - 2)%nat ∧
    length new_err = (length daily - 2)%nat ∧
    ∀ i hi, tail daily !! S i = Some hi →
      ∃ nmf, nmf_dict (self fitted) !! label hi = Some nmf ∧
             model_err !! i = Some (reconstruction_err_ nmf).
Proof.
  apply (fit_then_calc_rec_error_tail corpus daily start fitted).
  - by vm_compute.
  - intros i lo hi tfidf nmf _ _ _ _. by eexists _, _, _.
Defined.

(** Fitting the daily boundaries twice. *)
Lemma fit_twice_witness :
  ∃ w2, fit corpus daily fitted = (w2, inr tt) ∧ self w2 = self fitted.
Proof.
  apply (fit_twice corpus daily start fitted). by vm_compute.
Defined.

(** The two topics of the model of the first day, two words each. *)
Lemma display_components_prints_witness :
  display_components first_model first_vocabulary 2 start
  = (mkWorld (self start)
       (stdout start ++
        concat (imap (topic_lines first_vocabulary 2)
                  (tolist (model_components first_model)))),
     inr tt) ∧
  ∀ topic, topic ∈ tolist (model_components first_model) →
    Forall2 (λ j word, first_vocabulary !! j = Some word)
      (top_indices 2 topic)
      (topic_words first_vocabulary (top_indices 2 topic)).
Proof.
  apply (display_components_prints first_model first_vocabulary 2 start).
  intros topic Htopic. split; [apply sort_indices_permutes|].
  cbn in Htopic.
  repeat (apply elem_of_cons in Htopic as [->|Htopic]; [simpl; lia|]).
  by apply elem_of_nil in Htopic.
Defined.

(** Two words for three columns: the first topic fails. *)
Lemma display_components_index_error_witness :
  display_components first_model ["a"; "b"] 5 start
  = (mkWorld (self start) (stdout start ++ [] ++ [topic_header 0]),
     inl IndexError).
Proof.
  apply (display_components_index_error first_model ["a"; "b"] 5
           [] first_topic [second_topic] start).
  - by vm_compute.
  - constructor.
  - apply Exists_exists. exists 2%nat. split; [|simpl; lia].
    apply (bool_decide_unpack _). by vm_compute.
Defined.

(** The two largest of the weights 7, 4, 6 are at the indices 0 and 2. *)
Lemma top_indices_largest_witness :
  let idxs := top_indices (Z.of_nat 2) first_topic in
  NoDup idxs ∧
  length idxs = min 2 (length first_topic) ∧
  Forall (λ j, (j < length first_topic)%nat) idxs ∧
  (∀ p q a b x y, (p ≤ q)%nat → idxs !! p = Some a → idxs !! q = Some b →
     first_topic !! a = Some x → first_topic !! b = Some y → float_le y x) ∧
  (∀ a b x y, a ∈ idxs → b ∉ idxs →
     first_topic !! a = Some x → first_topic !! b = Some y → float_le y x).
Proof.
  apply (top_indices_largest 2 first_topic).
  - apply sort_indices_permutes.
  - apply sort_indices_ascending.
Defined.

Example top_indices_weights : top_indices 2 first_topic = [0; 2]%nat.
Proof. by vm_compute. Qed.

Example display_components_first_model :
  stdout (display_components first_model first_vocabulary 2 start).1
  = ["Topic 0:" +:+ LF; "markets higher" +:+ LF;
     "Topic 1:" +:+ LF; "markets open" +:+ LF].
Proof. by vm_compute. Qed.
End MoreExamples.

Section WithoutLda.
Import Fixture.
#[local] Existing Instance ascii_str.
#[local] Existing Instance spacy.
#[local] Existing Instance sklearn_without_lda.

(** With an LDA that never fits, the first day leaves its TF-IDF and NMF
    models behind. *)
Lemma fit_lda_failure_keeps_nmf_witness :
  ∃ w2, fit corpus ([] ++ day0 :: day0 + days 1 :: [])
          (mkWorld TopicSeries_default [])
          = (w2, inl (LibraryError "no convergence")) ∧
        self w2 = store_nmf (label (day0 + days 1))
                    ["markets"; "open"; "higher"; "rally"; "#on"]
                    (5, 42, [["markets"; "open"; "higher"]; ["rally"; "#on"]])
                    (self (mkWorld TopicSeries_default [finished])).
Proof.
  apply (fit_lda_failure_keeps_nmf corpus [] day0 (day0 + days 1) []
           (mkWorld TopicSeries_default [])
           (mkWorld TopicSeries_default [finished])).
  - by apply (bool_decide_unpack _).
  - by vm_compute.
  - by vm_compute.
  - by vm_compute.
Defined.
End WithoutLda.
